(** * convert_eprime/convert.py: the log-to-table parser and the column
      reduction, as a shallow embedding.

    The Python functions [_text_to_df], [text_to_rcsv] and [etext_to_rcsv]
    are written out below as Rocq functions.  Exceptions are values of
    [exn] carried in a sum; [print] and [DataFrame.to_csv] act on an
    explicit [world] threaded through the entry points. *)

From Stdlib Require Import String Ascii ZArith Lia.
From stdpp Require Import base option list strings.

Local Open Scope Z_scope.
Local Open Scope nat_scope.

(** ** Python strings *)

Module PyStr.

(** [s.find(c)]: position of the first occurrence of [c], if any. *)
Fixpoint find (c : ascii) (s : string) : option nat :=
  match s with
  | EmptyString => None
  | String a rest => if decide (a = c) then Some 0 else S <$> find c rest
  end.

(** [s[:n]]. *)
Fixpoint take (n : nat) (s : string) : string :=
  match n, s with
  | S n', String a rest => String a (take n' rest)
  | _, _ => EmptyString
  end.

(** [s[n:]]. *)
Fixpoint drop (n : nat) (s : string) : string :=
  match n, s with
  | S n', String _ rest => drop n' rest
  | _, _ => s
  end.

(** The characters [str.isspace] accepts in the ASCII range: tab, line
    feed, vertical tab, form feed, carriage return, the four separators
    28..31 and the blank. *)
Definition isspace (a : ascii) : bool :=
  let n := nat_of_ascii a in
  ((9 <=? n) && (n <=? 13)) || ((28 <=? n) && (n <=? 32)).

(** [s.lstrip()]. *)
Fixpoint lstrip (s : string) : string :=
  match s with
  | EmptyString => EmptyString
  | String a rest => if isspace a then lstrip rest else s
  end.

End PyStr.

(** ** Exceptions and the two effect layers *)

Inductive exn : Type :=
  | IndexError
  | ValueError
  | KeyError          (* what the specification calls MissingColumn *)
  | TypeError
  | AttributeError
  | Exception (msg : string).

(** Code that can only raise. *)
Definition Exc (A : Type) : Type := exn + A.

Definition exc_bind {A B} (e : Exc A) (k : A -> Exc B) : Exc B :=
  match e with
  | inl x => inl x
  | inr a => k a
  end.

Notation "x <~ e ;; k" := (exc_bind e (fun x => k))
  (at level 65, e at next level, right associativity).

(** [l[i]] on a Python list. *)
Definition getitem {A} (l : list A) (i : nat) : Exc A :=
  match l !! i with
  | Some x => inr x
  | None => inl IndexError
  end.

(** [s.index(c)]: like [find], but a miss is a [ValueError]. *)
Definition str_index (c : ascii) (s : string) : Exc nat :=
  match PyStr.find c s with
  | Some i => inr i
  | None => inl ValueError
  end.

(** A loop [for x in xs: body] over a state [S] in which the body may raise. *)
Fixpoint for_each {A S} (xs : list A) (body : A -> S -> Exc S) (s : S) : Exc S :=
  match xs with
  | [] => inr s
  | x :: rest => s' <~ body x s ;; for_each rest body s'
  end.

(** ** Tables *)

(** A cell of an object-dtype array: [np.nan], a text, or a number (the
    latter only arises as the value of an empty row sum). *)
Inductive cell : Type :=
  | NaN
  | Str (s : string)
  | Num (z : Z).

Global Instance cell_eq_dec : EqDecision cell.
Proof. solve_decision. Defined.

Global Instance exn_eq_dec : EqDecision exn.
Proof. solve_decision. Defined.

(** [x == x] on a cell: false exactly for [np.nan]. *)
Definition notnan (c : cell) : bool :=
  match c with
  | NaN => false
  | _ => true
  end.

(** A [pandas.DataFrame] with the default range index: the column labels
    and the values, row by row. *)
Record DataFrame : Type := mkDataFrame {
  columns : list string;
  values : list (list cell)
}.

(** [df.shape[0]]. *)
Definition n_rows_of (df : DataFrame) : nat := length (values df).

(** Every row has one cell per column label. *)
Definition well_shaped (df : DataFrame) : Prop :=
  Forall (fun row => length row = length (columns df)) (values df).

(** ** The world: standard output and the csv files written so far *)

Record world : Type := mkWorld {
  stdout : list string;
  written : list (string * DataFrame)
}.

Definition M (A : Type) : Type := world -> world * Exc A.

Definition ret {A} (a : A) : M A := fun w => (w, inr a).

Definition bind {A B} (m : M A) (k : A -> M B) : M B :=
  fun w =>
    match m w with
    | (w', inl x) => (w', inl x)
    | (w', inr a) => k a w'
    end.

Notation "x <- m ;; k" := (bind m (fun x => k))
  (at level 65, m at next level, right associativity).

Definition raise {A} (x : exn) : M A := fun w => (w, inl x).

Definition lift {A} (e : Exc A) : M A := fun w => (w, e).

(** [print(line)]. *)
Definition print (line : string) : M unit :=
  fun w => (mkWorld (stdout w ++ [line]) (written w), inr tt).

(** [df.to_csv(out_file, index=False)]. *)
Definition to_csv (df : DataFrame) (out_file : string) : M unit :=
  fun w => (mkWorld (stdout w) (written w ++ [(out_file, df)]), inr tt).

(** ** [_text_to_df], lines 200-205: where rows begin and end *)

Definition LogFrame_Start : string := "*** LogFrame Start ***".
Definition LogFrame_End : string := "*** LogFrame End ***".
Definition mismatch_warning : string :=
  "Warning: LogFrame Starts and Ends do not match up.".

(** [[i for i, row in enumerate(data) if row == marker]], counting from [i]. *)
Fixpoint marker_index_from (i : nat) (marker : string) (data : list string)
  : list nat :=
  match data with
  | [] => []
  | row :: rest =>
      if decide (row = marker)
      then i :: marker_index_from (S i) marker rest
      else marker_index_from (S i) marker rest
  end.

Definition marker_index (marker : string) (data : list string) : list nat :=
  marker_index_from 0 marker data.

(** The test of line 203.  Python's [or] evaluates [start_index[0] >=
    end_index[0]] only when the two lengths are equal. *)
Definition markers_mismatch (start_index end_index : list nat) : Exc bool :=
  if negb (length start_index =? length end_index) then inr true
  else
    s0 <~ getitem start_index 0 ;;
    e0 <~ getitem end_index 0 ;;
    inr (e0 <=? s0).

Record frames : Type := mkFrames {
  start_index : list nat;
  end_index : list nat;
  n_rows : nat
}.

Definition block_extractor (filtered_data : list string) : M frames :=
  let starts := marker_index LogFrame_Start filtered_data in
  let ends := marker_index LogFrame_End filtered_data in
  warn <- lift (markers_mismatch starts ends) ;;
  _ <- (if warn : bool then print mismatch_warning else ret tt) ;;
  ret (mkFrames starts ends (min (length starts) (length ends))).

(** ** [_text_to_df], lines 207-217: column headers *)

(** [l[a:b]] for indices that are not negative. *)
Definition slice {A} (l : list A) (a b : nat) : list A :=
  take (b - a) (drop a l).

Definition colon : ascii := ":"%char.

(** The text of a line before its first colon, as lines 214-215 and 226-228
    compute it once [index] has succeeded. *)
Definition key_of (line : string) : string :=
  match PyStr.find colon line with
  | Some i => PyStr.take i line
  | None => line
  end.

(** The text after the first colon, left-stripped (line 229). *)
Definition value_of (line : string) : string :=
  match PyStr.find colon line with
  | Some i => PyStr.lstrip (PyStr.drop (i + 1) line)
  | None => EmptyString
  end.

(** Lines 214-215: one pass of the inner loop. *)
Definition append_header (col_val : string) (headers : list string)
  : Exc (list string) :=
  split_header_idx <~ str_index colon col_val ;;
  inr (headers ++ [PyStr.take split_header_idx col_val]).

(** Lines 211-215: one pass of the outer loop, on the pair
    [(headers, data_by_rows)]. *)
Definition collect_row (filtered_data : list string) (starts ends : list nat)
    (i : nat) (st : list string * list (list string))
  : Exc (list string * list (list string)) :=
  s <~ getitem starts i ;;
  e <~ getitem ends i ;;
  let one_row := slice filtered_data (s + 1) e in
  headers <~ for_each one_row append_header (fst st) ;;
  inr (headers, snd st ++ [one_row]).

(** [list(OrderedDict.fromkeys(keys))]: the keys are inserted in turn, and a
    key that is already present keeps the place it has. *)
Definition OrderedDict_fromkeys (keys : list string) : list string :=
  foldl (fun d k => if decide (k ∈ d) then d else d ++ [k]) [] keys.

(** ** [_text_to_df], lines 219-231: the matrix of cells *)

(** [np.empty((n, m), dtype=object)] with every cell set to [np.nan]. *)
Definition nan_matrix (n m : nat) : list (list cell) :=
  replicate n (replicate m NaN).

(** [enumerate(l)], counting from [i]. *)
Fixpoint enumerate_from {A} (i : nat) (l : list A) : list (nat * A) :=
  match l with
  | [] => []
  | x :: rest => (i, x) :: enumerate_from (S i) rest
  end.

(** [data_matrix[i, k] = v].  Both indices are in range wherever the
    parser writes. *)
Definition set_cell (data_matrix : list (list cell)) (i k : nat) (v : cell)
  : list (list cell) :=
  alter (fun row => <[k := v]> row) i data_matrix.

(** Lines 226-229: one line of a block written into row [i]. *)
Definition fill_cell (headers : list string) (i : nat) (cell_data : string)
    (data_matrix : list (list cell)) : Exc (list (list cell)) :=
  split_header_idx <~ str_index colon cell_data ;;
  inr (foldl
         (fun m kh =>
            if decide (PyStr.take split_header_idx cell_data = snd kh)
            then set_cell m i (fst kh)
                   (Str (PyStr.lstrip
                           (PyStr.drop (split_header_idx + 1) cell_data)))
            else m)
         data_matrix (enumerate_from 0 headers)).

(** Lines 225-229: row [i]. *)
Definition fill_row (headers : list string) (data_by_rows : list (list string))
    (i : nat) (data_matrix : list (list cell)) : Exc (list (list cell)) :=
  block <~ getitem data_by_rows i ;;
  for_each block (fill_cell headers i) data_matrix.

(** Lines 207-231. *)
Definition materialize (filtered_data : list string) (fr : frames)
  : Exc DataFrame :=
  st <~ for_each (seq 0 (n_rows fr))
          (collect_row filtered_data (start_index fr) (end_index fr))
          ([], []) ;;
  let headers := OrderedDict_fromkeys (fst st) in
  let data_by_rows := snd st in
  data_matrix <~ for_each (seq 0 (n_rows fr)) (fill_row headers data_by_rows)
                   (nan_matrix (n_rows fr) (length headers)) ;;
  inr (mkDataFrame headers data_matrix).

(** ** [_text_to_df], lines 233-239: columns with a single value *)

(** [df.columns.get_loc(col)] for labels that are unique. *)
Fixpoint get_loc (col : string) (cols : list string) : Exc nat :=
  match cols with
  | [] => inl KeyError
  | c :: rest => if decide (c = col) then inr 0 else k <~ get_loc col rest ;; inr (S k)
  end.

(** [df[col].values], by position. *)
Definition column_values (df : DataFrame) (k : nat) : list cell :=
  (fun row => default NaN (row !! k)) <$> values df.

(** [np.where(v == v)[0]], counting from [i]. *)
Fixpoint non_nan_from (i : nat) (v : list cell) : list nat :=
  match v with
  | [] => []
  | c :: rest =>
      if notnan c then i :: non_nan_from (S i) rest
      else non_nan_from (S i) rest
  end.

(** [df.loc[:, col] = v], by position. *)
Definition set_column (df : DataFrame) (k : nat) (v : cell) : DataFrame :=
  mkDataFrame (columns df) ((fun row => <[k := v]> row) <$> values df).

(** Lines 236-239: one column. *)
Definition backfill_column (col : string) (df : DataFrame) : Exc DataFrame :=
  k <~ get_loc col (columns df) ;;
  let vals := column_values df k in
  let non_nan_idx := non_nan_from 0 vals in
  if length non_nan_idx =? 1 then
    i <~ getitem non_nan_idx 0 ;;
    if bool_decide (Z.of_nat i ∈
                      [0%Z; (Z.of_nat (n_rows_of df) - 1)%Z;
                       (Z.of_nat (n_rows_of df) - 2)%Z])
    then v <~ getitem vals i ;; inr (set_column df k v)
    else inr df
  else inr df.

(** Lines 235-239. *)
Definition singleton_backfill (df : DataFrame) : Exc DataFrame :=
  for_each (columns df) backfill_column df.

(** ** The column operations of [text_to_rcsv] and [etext_to_rcsv] *)

(** The parameter file after [json.load]: [param_dict.get(key)] is the
    field, [None] when the key is absent.  A JSON object is an association
    list in file order. *)
Record ParamDict : Type := mkParamDict {
  headers : option (list string);
  rem_nulls : option bool;
  null_cols : option (list string);
  replace_dict : option (list (string * list (string * string)));
  merge_cols : option (list (string * list string))
}.

(** [d.get(key)] on a Python dict. *)
Fixpoint dict_get {V} (d : list (string * V)) (key : string) : option V :=
  match d with
  | [] => None
  | (k, v) :: rest => if decide (k = key) then Some v else dict_get rest key
  end.

(** [df.rename(columns=replacements)].  Pandas refuses a call in which no
    mapping is passed ("must pass an index to rename"). *)
Definition rename (df : DataFrame) (replacements : option (list (string * string)))
  : Exc DataFrame :=
  match replacements with
  | None => inl TypeError
  | Some m =>
      inr (mkDataFrame
             ((fun c => default c (dict_get m c)) <$> columns df)
             (values df))
  end.

(** Lines 165-169. *)
Definition rename_step (edat_suffix : string) (param_dict : ParamDict)
    (df : DataFrame) : Exc DataFrame :=
  match replace_dict param_dict with
  | Some (entry :: more) =>
      rename df (dict_get (entry :: more) edat_suffix)
  | _ => inr df
  end.

(** The positions of the columns that carry [label]. *)
Definition locs (label : string) (cols : list string) : list nat :=
  fst <$> filter (fun kc => snd kc = label) (enumerate_from 0 cols).

(** [df[labels]] for a list of labels: the named columns in the order
    asked for, and a [KeyError] when a label names no column. *)
Definition getitem_columns (df : DataFrame) (labels : list string)
  : Exc DataFrame :=
  if bool_decide (Forall (fun l => l ∈ columns df) labels) then
    let positions := flat_map (fun l => locs l (columns df)) labels in
    inr (mkDataFrame
           (flat_map (fun l => (fun _ => l) <$> locs l (columns df)) labels)
           ((fun row => (fun k => default NaN (row !! k)) <$> positions)
              <$> values df))
  else inl KeyError.

(** [.fillna('')]. *)
Definition fillna_empty (c : cell) : cell :=
  match c with
  | NaN => Str EmptyString
  | _ => c
  end.

(** Python's [+] on two cells. *)
Definition py_add (a b : cell) : Exc cell :=
  match a, b with
  | Str x, Str y => inr (Str (x +:+ y))
  | Num x, Num y => inr (Num (x + y))
  | Num _, NaN | NaN, Num _ | NaN, NaN => inr NaN
  | _, _ => inl TypeError
  end.

(** [.sum(axis=1)] on one row: the cells are added from the left; a row
    without cells sums to the number zero. *)
Definition row_sum (row : list cell) : Exc cell :=
  match row with
  | [] => inr (Num 0)
  | c :: rest => for_each rest (fun x acc => py_add acc x) c
  end.

(** [xs.map(f)] where [f] may raise. *)
Fixpoint map_exc {A B} (f : A -> Exc B) (xs : list A) : Exc (list B) :=
  match xs with
  | [] => inr []
  | x :: rest => y <~ f x ;; ys <~ map_exc f rest ;; inr (y :: ys)
  end.

(** [df[col] = series]: an existing column is overwritten in place, a new
    label is appended as the last column. *)
Definition setitem_column (df : DataFrame) (col : string) (series : list cell)
  : DataFrame :=
  if decide (col ∈ columns df) then
    mkDataFrame (columns df)
      (zip_with
         (fun row v => foldl (fun r k => <[k := v]> r) row (locs col (columns df)))
         (values df) series)
  else
    mkDataFrame (columns df ++ [col])
      (zip_with (fun row v => row ++ [v]) (values df) series).

(** Line 174: [df[col] = df[sources].fillna('').sum(axis=1)]. *)
Definition merge_one (col : string) (sources : list string) (df : DataFrame)
  : Exc DataFrame :=
  sub <~ getitem_columns df sources ;;
  series <~ map_exc (fun row => row_sum (fillna_empty <$> row)) (values sub) ;;
  inr (setitem_column df col series).

(** Lines 172-174.  [merge_cols.keys()] on [None] is an [AttributeError]. *)
Definition merge_step (param_dict : ParamDict) (df : DataFrame) : Exc DataFrame :=
  match merge_cols param_dict with
  | None => inl AttributeError
  | Some mc =>
      for_each (fst <$> mc)
        (fun col df =>
           match dict_get mc col with
           | Some sources => merge_one col sources df
           | None => inl KeyError
           end)
        df
  end.

(** [df[header_list]] of lines 85 and 182; [header_list] is [None] when the
    parameter file has no [headers]. *)
Definition select (header_list : option (list string)) (df : DataFrame)
  : Exc DataFrame :=
  match header_list with
  | Some labels => getitem_columns df labels
  | None => inl KeyError
  end.

(** ** The three entry points *)

Section EntryPoints.

(** [remove_unicode(row.decode('utf-8', 'ignore'))] of [utils.py], which
    takes a raw line to its sanitized text. *)
Variable remove_unicode : string -> string.

(** [os.path.splitext]. *)
Variable splitext : string -> string * string.

(** [pd.read_csv(path, skiprows=..., sep=...)]. *)
Variable read_csv : string -> list nat -> string -> Exc DataFrame.

(** [df.dropna(subset=..., how='all')]. *)
Variable dropna : option (list string) -> DataFrame -> Exc DataFrame.

Definition _text_to_df (text_data : list string) : M DataFrame :=
  let filtered_data := remove_unicode <$> text_data in
  fr <- block_extractor filtered_data ;;
  df <- lift (materialize filtered_data fr) ;;
  lift (singleton_backfill df).

Definition created (out_file : string) : string :=
  "Output file successfully created- " +:+ out_file.

(** [text_to_csv], lines 121-124. *)
Definition text_to_csv (text_data : list string) (out_file : string) : M unit :=
  df <- _text_to_df text_data ;;
  _ <- to_csv df out_file ;;
  print (created out_file).

(** [text_to_rcsv], lines 162-178: the table as it reaches the selection. *)
Definition text_to_rcsv_table (text_data : list string) (edat_file : string)
    (param_dict : ParamDict) : M DataFrame :=
  df <- _text_to_df text_data ;;
  df <- lift (rename_step (snd (splitext edat_file)) param_dict df) ;;
  df <- lift (merge_step param_dict df) ;;
  if default false (rem_nulls param_dict)
  then lift (dropna (null_cols param_dict) df)
  else ret df.

(** [text_to_rcsv], lines 159-186. *)
Definition text_to_rcsv (text_data : list string) (edat_file : string)
    (param_dict : ParamDict) (out_file : string) : M unit :=
  df <- text_to_rcsv_table text_data edat_file param_dict ;;
  df <- lift (select (headers param_dict) df) ;;
  _ <- to_csv df out_file ;;
  print (created out_file).

Definition tab : string := String (ascii_of_nat 9) EmptyString.

(** [etext_to_rcsv], lines 70-82: the table read from the export. *)
Definition etext_to_rcsv_table (in_file : string) : M DataFrame :=
  let suffix := snd (splitext in_file) in
  if decide (suffix = ".txt") then lift (read_csv in_file [0; 1; 2] tab)
  else if decide (suffix = ".csv") then lift (read_csv in_file [] ",")
  else raise (Exception ("File not txt or csv: " +:+ in_file)).

(** [etext_to_rcsv], lines 67-94.  [param_dict['rem_nulls']] is a
    [KeyError] when the key is absent. *)
Definition etext_to_rcsv (in_file : string) (param_dict : ParamDict)
    (out_file : option string) : M unit :=
  df <- etext_to_rcsv_table in_file ;;
  df <- lift (select (headers param_dict) df) ;;
  rem <- lift (match rem_nulls param_dict with
               | Some b => inr b
               | None => inl KeyError
               end) ;;
  df <- (if rem : bool then lift (dropna None df) else ret df) ;;
  let out_file := default (fst (splitext in_file) +:+ ".csv") out_file in
  _ <- to_csv df out_file ;;
  print (created out_file).

End EntryPoints.

(** ** Notions used in the statements *)

Definition starts_of (filtered_data : list string) : list nat :=
  marker_index LogFrame_Start filtered_data.
Definition ends_of (filtered_data : list string) : list nat :=
  marker_index LogFrame_End filtered_data.

(** The number of usable blocks. *)
Definition usable (filtered_data : list string) : nat :=
  min (length (starts_of filtered_data)) (length (ends_of filtered_data)).

(** Block [i]: the lines strictly between start marker [i] and end marker
    [i]. *)
Definition block (filtered_data : list string) (starts ends : list nat)
    (i : nat) : list string :=
  match starts !! i, ends !! i with
  | Some s, Some e => slice filtered_data (s + 1) e
  | _, _ => []
  end.

Definition blocks_from (filtered_data : list string) (starts ends : list nat)
    (a n : nat) : list (list string) :=
  block filtered_data starts ends <$> seq a n.

(** The usable blocks of a log, in order. *)
Definition usable_blocks (filtered_data : list string) : list (list string) :=
  blocks_from filtered_data (starts_of filtered_data) (ends_of filtered_data)
    0 (usable filtered_data).

Definition has_colon (line : string) : bool :=
  match PyStr.find colon line with
  | Some _ => true
  | None => false
  end.

Definition all_colons (bs : list (list string)) : bool :=
  forallb (forallb has_colon) bs.

(** What the loop of lines 227-229 does to one row: every position whose
    header is [key] receives [v].  Positions are counted from [a]. *)
Definition write_from (a : nat) (hs : list string) (key : string) (v : cell)
    (row : list cell) : list cell :=
  foldl (fun r kh => if decide (key = snd kh) then <[fst kh := v]> r else r)
    row (enumerate_from a hs).

(** What lines 225-229 do to row [i], line after line of its block. *)
Definition rowfill (hs : list string) (blk : list string) (row : list cell)
  : list cell :=
  foldl (fun r line => write_from 0 hs (key_of line) (Str (value_of line)) r)
    row blk.

(** The row of a block, starting from a row of nulls. *)
Definition row_of (hs : list string) (blk : list string) : list cell :=
  rowfill hs blk (replicate (length hs) NaN).

(** The lines of a block that carry the key [h]. *)
Definition lines_with (h : string) (blk : list string) : list string :=
  filter (fun line => key_of line = h) blk.

(** [l.index(x)]: the position at which [x] is first seen. *)
Fixpoint first_index (x : string) (l : list string) : option nat :=
  match l with
  | [] => None
  | y :: rest => if decide (y = x) then Some 0 else S <$> first_index x rest
  end.

(** Lines 236-239 seen from one column: its values before and after. *)
Definition backfilled (vals : list cell) : list cell :=
  let non_nan_idx := non_nan_from 0 vals in
  if length non_nan_idx =? 1 then
    match non_nan_idx !! 0 with
    | Some i =>
        if bool_decide (Z.of_nat i ∈
                          [0%Z; (Z.of_nat (length vals) - 1)%Z;
                           (Z.of_nat (length vals) - 2)%Z])
        then replicate (length vals) (default NaN (vals !! i))
        else vals
    | None => vals
    end
  else vals.

(** The column holds a value in row [i] and in no other row. *)
Definition only_value_at (vals : list cell) (i : nat) (v : cell) : Prop :=
  vals !! i = Some v /\ v <> NaN /\
  forall j w, vals !! j = Some w -> w <> NaN -> j = i.

(** Row [i] of [n] rows is the first, the last or the one before the last. *)
Definition edge_row (n i : nat) : Prop :=
  i = 0 \/ i + 1 = n \/ i + 2 = n.

(** The table of lines 207-231 for a log all of whose block lines carry a
    colon. *)
Definition materialized (filtered_data : list string) : DataFrame :=
  let bs := usable_blocks filtered_data in
  let hs := OrderedDict_fromkeys (key_of <$> concat bs) in
  mkDataFrame hs (row_of hs <$> bs).

(** The world after the warning of line 204. *)
Definition warned (w : world) : world :=
  mkWorld (stdout w ++ [mismatch_warning]) (written w).

(** A small log with two blocks, used to exercise the statements. *)
Definition demo_log : list string :=
  ["Header Start"; "*** LogFrame Start ***"; "k1: 1"; "k2:2";
   "*** LogFrame End ***"; "*** LogFrame Start ***"; "k1:3"; "k3: x";
   "k1:   4"; "*** LogFrame End ***"].

Definition empty_world : world := mkWorld [] [].

(** The sanitizer that leaves a line as it is. *)
Definition keep_line (line : string) : string := line.

(** A log with three start markers and two end markers. *)
Definition uneven_log : list string :=
  ["*** LogFrame Start ***"; "a: 1"; "*** LogFrame End ***";
   "*** LogFrame Start ***"; "b: 2"; "*** LogFrame End ***";
   "*** LogFrame Start ***"].

(** A log whose only block holds a blank line. *)
Definition blank_line_log : list string :=
  ["*** LogFrame Start ***"; "a: 1"; ""; "*** LogFrame End ***"].

(** A table of five rows whose columns show the cases of lines 236-239:
    a value in the first row only, a value in the third row only, a value
    in the row before the last only, a column without values and a column
    with two values. *)
Definition five_rows : DataFrame :=
  mkDataFrame ["meta"; "meta2"; "meta3"; "none"; "two"]
    [[Str "v"; NaN; NaN; NaN; Str "a"];
     [NaN; NaN; NaN; NaN; NaN];
     [NaN; Str "m"; NaN; NaN; NaN];
     [NaN; NaN; Str "p"; NaN; Str "b"];
     [NaN; NaN; NaN; NaN; NaN]].

(** The cell of a row under the column labelled [label]. *)
Definition label_cell (df : DataFrame) (row : list cell) (label : string)
  : cell :=
  match first_index label (columns df) with
  | Some k => default NaN (row !! k)
  | None => NaN
  end.

(** A cell as text, null being the empty text. *)
Definition text_of (c : cell) : string :=
  match c with
  | Str s => s
  | _ => EmptyString
  end.

(** The texts of a list, joined from left to right. *)
Definition concat_text (l : list string) : string :=
  foldr String.append EmptyString l.

(** A table made of texts and nulls only, as [_text_to_df] builds them. *)
Definition text_only (df : DataFrame) : Prop :=
  Forall (Forall (fun c => forall z, c <> Num z)) (values df).

(** The merge of line 174 succeeds and puts, in every row, the joined
    texts of the source columns under the destination label. *)
Definition merge_concatenates (df : DataFrame) (dest : string)
    (sources : list string) : Prop :=
  exists df',
    merge_one dest sources df = inr df' /\
    n_rows_of df' = n_rows_of df /\
    dest ∈ columns df' /\
    forall i row,
      values df !! i = Some row ->
      exists row',
        values df' !! i = Some row' /\
        forall k,
          columns df' !! k = Some dest ->
          row' !! k =
          Some (Str (concat_text
                       ((fun s => text_of (label_cell df row s)) <$> sources))).

(** The example of the specification: sources A and B, values x and null. *)
Definition merge_example : DataFrame :=
  mkDataFrame ["A"; "B"] [[Str "x"; NaN]; [Str "1"; Str "2"]].

(** Stand-ins for the library calls when a statement is exercised on a
    concrete run: [os.path.splitext] on names with a dot, a reader that
    finds the same one-column table in every file, and a null filter that
    keeps every row. *)
Fixpoint split_at_dot (name : string) : string * string :=
  match name with
  | EmptyString => (EmptyString, EmptyString)
  | String a rest =>
      if decide (a = "."%char) then (EmptyString, name)
      else (String a (fst (split_at_dot rest)), snd (split_at_dot rest))
  end.

Definition one_column_reader (path : string) (skiprows : list nat)
    (sep : string) : Exc DataFrame :=
  inr (mkDataFrame ["A"] [[Str "x"]]).

Definition keep_rows (subset : option (list string)) (df : DataFrame)
  : Exc DataFrame :=
  inr df.

(** A parameter file that asks for a column [Z] and merges nothing. *)
Definition asks_for_Z : ParamDict :=
  mkParamDict (Some ["k1"; "Z"]) (Some false) None None (Some []).

(** A parameter file without [merge_cols]. *)
Definition no_merge_cols : ParamDict :=
  mkParamDict (Some ["k1"]) (Some false) None None None.

(** A parameter file whose [replace_dict] knows [.edat] only. *)
Definition edat_only : ParamDict :=
  mkParamDict (Some ["k1"]) (Some false) None
    (Some [(".edat", [("k1", "key1")])]) (Some []).


(** A table of three rows whose only value stands in the middle row. *)
Definition three_rows : DataFrame :=
  mkDataFrame ["a"] [[NaN]; [Str "mid"]; [NaN]].


(** Every character of the text is one that [lstrip] removes. *)
Fixpoint all_space (s : string) : bool :=
  match s with
  | EmptyString => true
  | String a rest => PyStr.isspace a && all_space rest
  end.


(** The sanitized line is neither marker. *)
Definition not_a_marker (line : string) : Prop :=
  line <> LogFrame_Start /\ line <> LogFrame_End.


(** A log whose second pair of markers is the wrong way round. *)
Definition inverted_log : list string :=
  ["*** LogFrame Start ***"; "a: 1"; "*** LogFrame End ***";
   "*** LogFrame End ***"; "*** LogFrame Start ***"].



(** ** The command line, lines 243-262 *)

(** [name.startswith('_')]. *)
Definition startswith_underscore (name : string) : bool :=
  match name with
  | String a _ => bool_decide (a = "_"%char)
  | EmptyString => false
  end.

(** The call of line 262: the function chosen and [sys.argv[2:]]. *)
Inductive call : Type :=
  | Call (function_name : string) (args : list string).

(** How the block can end without a call: [sys.argv[1]] is missing, the
    [IOError] of line 253, the [IOError] of line 259 with the number of
    arguments the function takes and the number given, or a name missing
    from [globals()]. *)
Inductive main_error : Type :=
  | ArgvIndexError
  | IOError_not_in (function_name : string)
  | IOError_args (function_name : string) (n_args given : nat)
  | GlobalsKeyError.

Section CommandLine.

(** The number of arguments of [remove_unicode], which [utils.py] defines
    and line 33 imports into the module. *)
Variable remove_unicode_n_args : nat.

(** The members of the module that are functions, by name as
    [inspect.getmembers] lists them, each with the length of its
    [getargspec(...).args]. *)
Definition module_functions : list (string * nat) :=
  [("_text_to_df", 1); ("etext_to_rcsv", 3);
   ("remove_unicode", remove_unicode_n_args);
   ("text_to_csv", 2); ("text_to_rcsv", 4)].

(** Lines 249-250. *)
Definition MODULE_FUNCTIONS : list string :=
  filter (fun name => startswith_underscore name = false)
    (fst <$> module_functions).

(** Lines 248-262. *)
Definition main (argv : list string) : main_error + call :=
  match argv !! 1 with
  | None => inl ArgvIndexError
  | Some function_name =>
      if bool_decide (function_name ∈ MODULE_FUNCTIONS) then
        match dict_get module_functions function_name with
        | Some n_args =>
            if n_args =? length argv - 2
            then inr (Call function_name (drop 2 argv))
            else inl (IOError_args function_name n_args (length argv - 2))
        | None => inl GlobalsKeyError
        end
      else inl (IOError_not_in function_name)
  end.

End CommandLine.


(** A log in which a frame is opened and never closed before the next
    frame starts. *)
Definition unclosed_log : list string :=
  ["*** LogFrame Start ***"; "a: 1"; "*** LogFrame Start ***"; "b: 2";
   "*** LogFrame End ***"].

(** * Properties *)

(** ** Lines 200-205 *)

Lemma getitem_lt {A} (l : list A) (i : nat) :
  i < length l -> exists x, l !! i = Some x /\ getitem l i = inr x.
Proof.
  intros Hi. destruct (lookup_lt_is_Some_2 l i Hi) as [x Hx].
  exists x. unfold getitem. by rewrite Hx.
Qed.

Lemma markers_mismatch_differ (starts ends : list nat) :
  length starts <> length ends -> markers_mismatch starts ends = inr true.
Proof.
  intros H. unfold markers_mismatch.
  destruct (Nat.eqb_spec (length starts) (length ends)); [done | reflexivity].
Qed.

Lemma markers_mismatch_heads (starts ends : list nat) (s0 e0 : nat) :
  length starts = length ends ->
  starts !! 0 = Some s0 -> ends !! 0 = Some e0 ->
  markers_mismatch starts ends = inr (e0 <=? s0).
Proof.
  intros H Hs He. unfold markers_mismatch, getitem.
  rewrite H, Nat.eqb_refl, Hs, He. reflexivity.
Qed.

(** Without any marker the test itself raises. *)
Lemma markers_mismatch_none : markers_mismatch [] [] = inl IndexError.
Proof. reflexivity. Qed.

Lemma block_extractor_no_markers (filtered_data : list string) (w : world) :
  marker_index LogFrame_Start filtered_data = [] ->
  marker_index LogFrame_End filtered_data = [] ->
  block_extractor filtered_data w = (w, inl IndexError).
Proof.
  intros Hs He. unfold block_extractor, bind, lift. by rewrite Hs, He.
Qed.

Lemma markers_mismatch_defined (starts ends : list nat) :
  0 < min (length starts) (length ends) ->
  exists b, markers_mismatch starts ends = inr b.
Proof.
  intros H. unfold markers_mismatch.
  destruct (negb _); [eauto|].
  destruct (getitem_lt starts 0) as (s0 & _ & ->); [lia|].
  destruct (getitem_lt ends 0) as (e0 & _ & ->); [lia|].
  simpl. eauto.
Qed.

(** ** Lines 207-215: the first loop *)

Lemma str_index_Some (line : string) (i : nat) :
  PyStr.find colon line = Some i -> str_index colon line = inr i.
Proof. unfold str_index. by intros ->. Qed.

Lemma str_index_None (line : string) :
  PyStr.find colon line = None -> str_index colon line = inl ValueError.
Proof. unfold str_index. by intros ->. Qed.

Lemma has_colon_Some (line : string) (i : nat) :
  PyStr.find colon line = Some i -> has_colon line = true.
Proof. unfold has_colon. by intros ->. Qed.

Lemma has_colon_None (line : string) :
  PyStr.find colon line = None -> has_colon line = false.
Proof. unfold has_colon. by intros ->. Qed.

Lemma has_colon_true (line : string) :
  has_colon line = true -> exists i, PyStr.find colon line = Some i.
Proof. unfold has_colon. destruct (PyStr.find colon line); [eauto | discriminate]. Qed.

Lemma key_of_Some (line : string) (i : nat) :
  PyStr.find colon line = Some i -> key_of line = PyStr.take i line.
Proof. unfold key_of. by intros ->. Qed.

Lemma value_of_Some (line : string) (i : nat) :
  PyStr.find colon line = Some i ->
  value_of line = PyStr.lstrip (PyStr.drop (i + 1) line).
Proof. unfold value_of. by intros ->. Qed.

Lemma append_header_loop (one_row : list string) (h0 : list string) :
  for_each one_row append_header h0 =
  if forallb has_colon one_row then inr (h0 ++ (key_of <$> one_row))
  else inl ValueError.
Proof.
  revert h0. induction one_row as [|line rest IH]; intros h0; simpl.
  - by rewrite app_nil_r.
  - unfold append_header at 1.
    destruct (PyStr.find colon line) as [i|] eqn:E.
    + rewrite (str_index_Some _ _ E), (has_colon_Some _ _ E),
        (key_of_Some _ _ E). simpl.
      rewrite IH. destruct (forallb has_colon rest); [|done].
      by rewrite <- app_assoc.
    + by rewrite (str_index_None _ E), (has_colon_None _ E).
Qed.

Lemma blocks_from_S (filtered_data : list string) (starts ends : list nat)
    (a n : nat) :
  blocks_from filtered_data starts ends a (S n) =
  block filtered_data starts ends a ::
  blocks_from filtered_data starts ends (S a) n.
Proof. reflexivity. Qed.

Lemma collect_row_loop (filtered_data : list string) (starts ends : list nat)
    (n a : nat) (h0 : list string) (d0 : list (list string)) :
  a + n <= length starts -> a + n <= length ends ->
  for_each (seq a n) (collect_row filtered_data starts ends) (h0, d0) =
  let bs := blocks_from filtered_data starts ends a n in
  if all_colons bs then inr (h0 ++ (key_of <$> concat bs), d0 ++ bs)
  else inl ValueError.
Proof.
  revert a h0 d0. induction n as [|n IH]; intros a h0 d0 Hs He.
  - simpl. by rewrite !app_nil_r.
  - cbv zeta. rewrite blocks_from_S. cbn [seq for_each].
    unfold collect_row at 1.
    destruct (getitem_lt starts a) as (s & Es & ->); [lia|].
    destruct (getitem_lt ends a) as (e & Ee & ->); [lia|].
    cbn [exc_bind fst snd]. rewrite append_header_loop.
    unfold block at 1 2 3. rewrite Es, Ee.
    cbn [all_colons forallb concat].
    destruct (forallb has_colon (slice filtered_data (s + 1) e)); [|done].
    cbn [exc_bind andb]. rewrite IH by lia. cbv zeta.
    fold (all_colons (blocks_from filtered_data starts ends (S a) n)).
    destruct (all_colons _); [|done].
    rewrite fmap_app, <- !app_assoc. reflexivity.
Qed.

(** ** Lines 219-231: the second loop *)

Lemma set_cell_fold (key : string) (v : cell) (i : nat)
    (l : list (nat * string)) (m : list (list cell)) :
  foldl (fun m kh => if decide (key = snd kh) then set_cell m i (fst kh) v else m)
    m l =
  alter (fun row =>
           foldl (fun r kh => if decide (key = snd kh) then <[fst kh := v]> r else r)
             row l) i m.
Proof.
  revert m. induction l as [|[k h] l IH]; intros m.
  - simpl. symmetry. by apply list_alter_id.
  - cbn [foldl fst snd]. rewrite IH. destruct (decide (key = h)) as [->|Hne].
    + unfold set_cell. rewrite list_alter_alter_eq.
      apply list_alter_ext; [|done]. intros row _. reflexivity.
    + apply list_alter_ext; [|done]. intros row _. reflexivity.
Qed.

Lemma fill_cell_eq (hs : list string) (i : nat) (line : string)
    (m : list (list cell)) :
  has_colon line = true ->
  fill_cell hs i line m =
  inr (alter (write_from 0 hs (key_of line) (Str (value_of line))) i m).
Proof.
  intros Hc. destruct (has_colon_true _ Hc) as [idx E].
  unfold fill_cell. rewrite (str_index_Some _ _ E). cbn [exc_bind].
  rewrite (key_of_Some _ _ E), (value_of_Some _ _ E).
  f_equal. apply set_cell_fold.
Qed.

Lemma fill_block_loop (hs : list string) (i : nat) (blk : list string)
    (m : list (list cell)) :
  forallb has_colon blk = true ->
  for_each blk (fill_cell hs i) m = inr (alter (rowfill hs blk) i m).
Proof.
  revert m. induction blk as [|line rest IH]; intros m Hc.
  - simpl. f_equal. symmetry. by apply list_alter_id.
  - cbn [forallb] in Hc. apply andb_prop in Hc as [H1 H2].
    cbn [for_each]. rewrite fill_cell_eq by done. cbn [exc_bind].
    rewrite IH by done. f_equal. rewrite list_alter_alter_eq.
    by apply list_alter_ext.
Qed.

Lemma all_colons_lookup (d : list (list string)) (i : nat) (blk : list string) :
  all_colons d = true -> d !! i = Some blk -> forallb has_colon blk = true.
Proof.
  revert i. induction d as [|b d IH]; intros i Hc Hi; [done|].
  cbn [all_colons forallb] in Hc. apply andb_prop in Hc as [H1 H2].
  destruct i as [|i]; simpl in Hi.
  - by inversion Hi; subst.
  - by apply (IH i).
Qed.

Lemma fill_rows_loop (hs : list string) (d : list (list string)) (n a : nat)
    (m : list (list cell)) :
  a + n <= length d -> all_colons d = true ->
  exists m',
    for_each (seq a n) (fill_row hs d) m = inr m' /\
    forall j, m' !! j =
      if decide (a <= j < a + n)
      then rowfill hs (default [] (d !! j)) <$> m !! j
      else m !! j.
Proof.
  revert a m. induction n as [|n IH]; intros a m Hlen Hc.
  - exists m. split; [done|]. intros j. by rewrite decide_False by lia.
  - cbn [seq for_each]. unfold fill_row at 1.
    destruct (getitem_lt d a) as (blk & Eb & ->); [lia|]. cbn [exc_bind].
    rewrite fill_block_loop by (by eapply all_colons_lookup).
    cbn [exc_bind].
    destruct (IH (S a) (alter (rowfill hs blk) a m)) as (m' & -> & Hm');
      [lia | done |].
    exists m'. split; [done|]. intros j. rewrite Hm'.
    rewrite list_lookup_alter.
    destruct (decide (a = j)) as [<-|Hne].
    + rewrite decide_False by lia. rewrite decide_True by lia.
      by rewrite Eb.
    + destruct (decide (S a <= j < S a + n)).
      * by rewrite decide_True by lia.
      * by rewrite decide_False by lia.
Qed.

Lemma materialize_eq (filtered_data : list string) (starts ends : list nat)
    (n : nat) :
  n <= length starts -> n <= length ends ->
  materialize filtered_data (mkFrames starts ends n) =
  let bs := blocks_from filtered_data starts ends 0 n in
  let hs := OrderedDict_fromkeys (key_of <$> concat bs) in
  if all_colons bs then inr (mkDataFrame hs (row_of hs <$> bs))
  else inl ValueError.
Proof.
  intros Hs He. unfold materialize. cbn [n_rows start_index end_index].
  rewrite collect_row_loop by done. cbv zeta.
  destruct (all_colons _) eqn:Hc; [|done]. cbn [exc_bind fst snd app].
  set (bs := blocks_from filtered_data starts ends 0 n) in *.
  set (hs := OrderedDict_fromkeys (key_of <$> concat bs)).
  assert (Hbs : length bs = n).
  { unfold bs, blocks_from. by rewrite length_fmap, length_seq. }
  destruct (fill_rows_loop hs bs n 0 (nan_matrix n (length hs)))
    as (m' & -> & Hm'); [lia | done |].
  cbn [exc_bind]. do 2 f_equal. apply list_eq. intros j.
  rewrite Hm', list_lookup_fmap. unfold nan_matrix.
  destruct (decide (0 <= j < 0 + n)) as [Hj|Hj].
  - rewrite lookup_replicate_2 by lia.
    destruct (lookup_lt_is_Some_2 bs j) as [blk Eb]; [lia|].
    rewrite Eb. reflexivity.
  - rewrite (proj1 (lookup_replicate_None _ _ _)) by lia.
    rewrite (lookup_ge_None_2 bs j) by lia. reflexivity.
Qed.

(** ** One row, cell by cell *)

Lemma write_from_cons (a : nat) (h : string) (hs : list string) (key : string)
    (v : cell) (row : list cell) :
  write_from a (h :: hs) key v row =
  write_from (S a) hs key v (if decide (key = h) then <[a := v]> row else row).
Proof. reflexivity. Qed.

Lemma length_write_from (a : nat) (hs : list string) (key : string) (v : cell)
    (row : list cell) :
  length (write_from a hs key v row) = length row.
Proof.
  revert a row. induction hs as [|h hs IH]; intros a row; [done|].
  rewrite write_from_cons, IH. destruct (decide (key = h)); [|done].
  apply length_insert.
Qed.

Lemma write_from_lookup (a : nat) (hs : list string) (key : string) (v : cell)
    (row : list cell) (k : nat) :
  write_from a hs key v row !! k =
  if decide (k < length row /\ a <= k /\ hs !! (k - a) = Some key)
  then Some v else row !! k.
Proof.
  revert a row. induction hs as [|h hs IH]; intros a row.
  - simpl. rewrite decide_False; [done|]. intros (_ & _ & H). done.
  - rewrite write_from_cons, IH.
    destruct (decide (key = h)) as [->|Hne].
    + rewrite length_insert.
      destruct (decide (k = a)) as [->|Hka].
      * rewrite decide_False by lia.
        destruct (decide (a < length row)) as [Hlt|Hge].
        -- rewrite list_lookup_insert_eq by done.
           rewrite decide_True; [done|]. by rewrite Nat.sub_diag.
        -- rewrite decide_False by lia.
           by rewrite list_insert_ge by lia.
      * rewrite list_lookup_insert_ne by done.
        destruct (decide (a < k)) as [Hlt|Hge].
        -- replace (k - a) with (S (k - S a)) by lia. simpl.
           destruct (decide (k < length row /\ S a <= k /\ _)) as [H|H].
           ++ rewrite decide_True; [done|]. destruct H as (?&?&?).
              repeat split; [done | lia | done].
           ++ rewrite decide_False; [done|]. intros (?&?&?). apply H.
              repeat split; [done | lia | done].
        -- rewrite decide_False by lia. by rewrite decide_False by lia.
    + destruct (decide (k = a)) as [->|Hka].
      * rewrite decide_False by lia. rewrite decide_False; [done|].
        rewrite Nat.sub_diag. simpl. intros (_ & _ & [= ->]). done.
      * destruct (decide (a < k)) as [Hlt|Hge].
        -- replace (k - a) with (S (k - S a)) by lia. simpl.
           destruct (decide (k < length row /\ S a <= k /\ _)) as [H|H].
           ++ rewrite decide_True; [done|]. destruct H as (?&?&?).
              repeat split; [done | lia | done].
           ++ rewrite decide_False; [done|]. intros (?&?&?). apply H.
              repeat split; [done | lia | done].
        -- rewrite decide_False by lia. by rewrite decide_False by lia.
Qed.

Lemma rowfill_cons (hs : list string) (line : string) (rest : list string)
    (row : list cell) :
  rowfill hs (line :: rest) row =
  rowfill hs rest (write_from 0 hs (key_of line) (Str (value_of line)) row).
Proof. reflexivity. Qed.

Lemma length_rowfill (hs : list string) (blk : list string) (row : list cell) :
  length (rowfill hs blk row) = length row.
Proof.
  revert row. induction blk as [|line rest IH]; intros row; [done|].
  by rewrite rowfill_cons, IH, length_write_from.
Qed.

Lemma rowfill_lookup (hs : list string) (blk : list string) (row : list cell)
    (k : nat) (h : string) (c : cell) :
  hs !! k = Some h -> row !! k = Some c ->
  rowfill hs blk row !! k =
  Some (match last (lines_with h blk) with
        | Some line => Str (value_of line)
        | None => c
        end).
Proof.
  intros Hh. revert row c. induction blk as [|line rest IH]; intros row c Hc.
  - done.
  - rewrite rowfill_cons. unfold lines_with. rewrite filter_cons. fold (lines_with h rest).
    pose proof (write_from_lookup 0 hs (key_of line) (Str (value_of line)) row k)
      as Hw.
    rewrite Nat.sub_0_r in Hw.
    destruct (decide (key_of line = h)) as [Hk|Hk].
    + rewrite decide_True in Hw.
      2:{ repeat split; [by eapply lookup_lt_Some | lia | by rewrite Hk]. }
      rewrite (IH _ _ Hw). rewrite last_cons.
      by destruct (last (lines_with h rest)).
    + rewrite decide_False in Hw.
      2:{ intros (_ & _ & H). rewrite Hh in H. by inversion H. }
      rewrite Hc in Hw. by rewrite (IH _ _ Hw).
Qed.

Lemma length_row_of (hs : list string) (blk : list string) :
  length (row_of hs blk) = length hs.
Proof. unfold row_of. by rewrite length_rowfill, length_replicate. Qed.

Lemma row_of_lookup (hs : list string) (blk : list string) (k : nat)
    (h : string) :
  hs !! k = Some h ->
  row_of hs blk !! k =
  Some (match last (lines_with h blk) with
        | Some line => Str (value_of line)
        | None => NaN
        end).
Proof.
  intros Hh. unfold row_of. apply rowfill_lookup; [done|].
  apply lookup_replicate_2. by eapply lookup_lt_Some.
Qed.

(** ** [OrderedDict.fromkeys] *)

Lemma fromkeys_snoc (l : list string) (x : string) :
  OrderedDict_fromkeys (l ++ [x]) =
  if decide (x ∈ OrderedDict_fromkeys l) then OrderedDict_fromkeys l
  else OrderedDict_fromkeys l ++ [x].
Proof. unfold OrderedDict_fromkeys. by rewrite foldl_snoc. Qed.

Lemma fromkeys_elem_of (l : list string) (x : string) :
  x ∈ OrderedDict_fromkeys l <-> x ∈ l.
Proof.
  induction l as [|y l IH] using rev_ind; [done|].
  rewrite fromkeys_snoc, elem_of_app, list_elem_of_singleton.
  destruct (decide (y ∈ OrderedDict_fromkeys l)) as [Hy|Hy].
  - split; [tauto|]. intros [H| ->]; [tauto | done].
  - rewrite elem_of_app, list_elem_of_singleton. tauto.
Qed.

Lemma fromkeys_NoDup (l : list string) : NoDup (OrderedDict_fromkeys l).
Proof.
  induction l as [|y l IH] using rev_ind; [constructor|].
  rewrite fromkeys_snoc. destruct (decide _) as [Hy|Hy]; [done|].
  apply NoDup_app. split; [done|]. split; [|apply NoDup_singleton].
  intros x Hx ->%list_elem_of_singleton. done.
Qed.

Lemma first_index_None (x : string) (l : list string) :
  first_index x l = None <-> x ∉ l.
Proof.
  induction l as [|y l IH]; simpl.
  - split; [|done]. intros _ H. inversion H.
  - rewrite not_elem_of_cons. destruct (decide (y = x)) as [->|Hne].
    + split; [done|]. intros [H _]. done.
    + destruct (first_index x l); simpl.
      * split; [done|]. intros [_ H]. by apply IH in H.
      * split; [|done]. intros _. split; [done | by apply IH].
Qed.

Lemma first_index_lt (x : string) (l : list string) (i : nat) :
  first_index x l = Some i -> i < length l.
Proof.
  revert i. induction l as [|y l IH]; intros i; simpl; [done|].
  destruct (decide (y = x)); [intros [= <-]; lia|].
  destruct (first_index x l) as [j|]; simpl; [|done].
  intros [= <-]. specialize (IH j eq_refl). lia.
Qed.

Lemma first_index_app (x : string) (l1 l2 : list string) :
  first_index x (l1 ++ l2) =
  match first_index x l1 with
  | Some i => Some i
  | None => (fun j => length l1 + j) <$> first_index x l2
  end.
Proof.
  induction l1 as [|y l1 IH]; simpl.
  - by destruct (first_index x l2).
  - destruct (decide (y = x)); [done|]. rewrite IH.
    destruct (first_index x l1); [done|].
    by destruct (first_index x l2).
Qed.

Lemma first_index_snoc_old (x y : string) (l : list string) :
  x ∈ l -> first_index x (l ++ [y]) = first_index x l.
Proof.
  intros Hx. rewrite first_index_app.
  destruct (first_index x l) eqn:E; [done|].
  by apply first_index_None in E.
Qed.

Lemma first_index_snoc_inv (x y : string) (l : list string) (i : nat) :
  first_index x (l ++ [y]) = Some i ->
  (x ∈ l /\ first_index x l = Some i) \/ ((x ∉ l) /\ x = y /\ i = length l).
Proof.
  destruct (decide (x ∈ l)) as [Hx|Hx].
  - rewrite first_index_snoc_old by done. auto.
  - rewrite first_index_app. pose proof Hx as Hn.
    apply first_index_None in Hn. rewrite Hn. simpl.
    destruct (decide (y = x)) as [->|Hne]; [|done].
    simpl. intros [= <-]. right. repeat split; [done | lia].
Qed.

(** The order of the result is the order of first occurrence. *)
Lemma fromkeys_order (l : list string) (a b : string) (i j i' j' : nat) :
  first_index a l = Some i -> first_index b l = Some j ->
  first_index a (OrderedDict_fromkeys l) = Some i' ->
  first_index b (OrderedDict_fromkeys l) = Some j' ->
  (i' < j' <-> i < j).
Proof.
  revert i j i' j'. induction l as [|y l IH] using rev_ind;
    intros i j i' j'; [done|].
  rewrite fromkeys_snoc.
  destruct (decide (y ∈ OrderedDict_fromkeys l)) as [Hy|Hy].
  - assert (Hyl : y ∈ l) by (by apply fromkeys_elem_of).
    intros Ha Hb Ha' Hb'.
    apply first_index_snoc_inv in Ha as [[_ Ha]|(Hn & -> & _)]; [|done].
    apply first_index_snoc_inv in Hb as [[_ Hb]|(Hn & -> & _)]; [|done].
    by apply IH.
  - intros Ha Hb Ha' Hb'.
    apply first_index_snoc_inv in Ha as [[Hal Ha]|(Hal & -> & ->)];
    apply first_index_snoc_inv in Hb as [[Hbl Hb]|(Hbl & -> & ->)];
    apply first_index_snoc_inv in Ha' as [[Hal' Ha']|(Hal' & _ & ->)];
    apply first_index_snoc_inv in Hb' as [[Hbl' Hb']|(Hbl' & _ & ->)];
    rewrite ?fromkeys_elem_of in Hal', Hbl'; try done;
    try (by apply IH);
    repeat match goal with
           | H : first_index _ _ = Some _ |- _ => apply first_index_lt in H
           end; lia.
Qed.

(** ** Lines 233-239: one column *)

Lemma non_nan_from_elem_of (a : nat) (vals : list cell) (j : nat) :
  j ∈ non_nan_from a vals <->
  a <= j /\ exists c, vals !! (j - a) = Some c /\ c <> NaN.
Proof.
  revert a. induction vals as [|c rest IH]; intros a; simpl.
  - split; [intros H; inversion H | intros (_ & c & H & _); done].
  - assert (Hstep : j ∈ non_nan_from (S a) rest <->
                    S a <= j /\ exists c', (c :: rest) !! (j - a) = Some c' /\ c' <> NaN).
    { rewrite IH. split; intros (Hle & c' & Hc' & Hn); (split; [done|]);
        exists c'; (split; [|done]).
      - by replace (j - a) with (S (j - S a)) by lia.
      - by replace (j - a) with (S (j - S a)) in Hc' by lia. }
    destruct c; simpl.
    + rewrite Hstep. split.
      * intros (Hle & H). split; [lia | done].
      * intros (Hle & c' & Hc' & Hn). split; [|eauto].
        destruct (decide (j = a)) as [->|]; [|lia].
        rewrite Nat.sub_diag in Hc'. simpl in Hc'. congruence.
    + rewrite elem_of_cons, Hstep. split.
      * intros [->|(Hle & H)]; [|split; [lia | done]].
        split; [done|]. rewrite Nat.sub_diag. simpl. eauto.
      * intros (Hle & H). destruct (decide (j = a)); [by left | right].
        split; [lia | done].
    + rewrite elem_of_cons, Hstep. split.
      * intros [->|(Hle & H)]; [|split; [lia | done]].
        split; [done|]. rewrite Nat.sub_diag. simpl. eauto.
      * intros (Hle & H). destruct (decide (j = a)); [by left | right].
        split; [lia | done].
Qed.

Lemma non_nan_from_NoDup (a : nat) (vals : list cell) :
  NoDup (non_nan_from a vals).
Proof.
  revert a. induction vals as [|c rest IH]; intros a; simpl; [constructor|].
  destruct (notnan c); [|done]. constructor; [|done].
  rewrite non_nan_from_elem_of. lia.
Qed.

Lemma singleton_of_NoDup (l : list nat) (i : nat) :
  NoDup l -> i ∈ l -> (forall j, j ∈ l -> j = i) -> l = [i].
Proof.
  intros Hnd Hi Hall. destruct l as [|x l]; [inversion Hi|].
  assert (x = i) as -> by (apply Hall; left).
  destruct l as [|y l]; [done|].
  assert (y = i) as -> by (apply Hall; right; left).
  apply NoDup_cons in Hnd as [Hn _]. exfalso. apply Hn. left.
Qed.

Lemma non_nan_only (vals : list cell) (i : nat) :
  non_nan_from 0 vals = [i] <-> exists v, only_value_at vals i v.
Proof.
  split.
  - intros E.
    assert (Hi : i ∈ non_nan_from 0 vals) by (rewrite E; left).
    apply non_nan_from_elem_of in Hi as (_ & v & Hv & Hn).
    rewrite Nat.sub_0_r in Hv. exists v. repeat split; [done..|].
    intros j w Hw Hnw.
    assert (Hj : j ∈ non_nan_from 0 vals).
    { apply non_nan_from_elem_of. split; [lia|]. exists w.
      by rewrite Nat.sub_0_r. }
    rewrite E in Hj. by apply list_elem_of_singleton in Hj.
  - intros (v & Hv & Hn & Huniq).
    apply singleton_of_NoDup; [apply non_nan_from_NoDup | |].
    + apply non_nan_from_elem_of. split; [lia|]. exists v.
      by rewrite Nat.sub_0_r.
    + intros j (_ & w & Hw & Hnw)%non_nan_from_elem_of.
      rewrite Nat.sub_0_r in Hw. by eapply Huniq.
Qed.

Lemma edge_row_decide (n i : nat) :
  bool_decide (Z.of_nat i ∈
                 [0%Z; (Z.of_nat n - 1)%Z; (Z.of_nat n - 2)%Z]) = true <->
  edge_row n i.
Proof.
  rewrite bool_decide_eq_true. unfold edge_row.
  rewrite !elem_of_cons, elem_of_nil. lia.
Qed.

(** What the backfill makes of a column, in words of the column alone. *)
Lemma backfilled_spec (vals : list cell) :
  (exists i v, only_value_at vals i v /\ edge_row (length vals) i /\
               backfilled vals = replicate (length vals) v) \/
  (~ (exists i v, only_value_at vals i v /\ edge_row (length vals) i) /\
   backfilled vals = vals).
Proof.
  unfold backfilled.
  destruct (non_nan_from 0 vals) as [|i [|i2 rest]] eqn:E; simpl.
  - right. split; [|done]. intros (i & v & Ho & _).
    assert (H : non_nan_from 0 vals = [i]) by (apply non_nan_only; eauto).
    congruence.
  - apply non_nan_only in E as Ho. destruct Ho as (v & Ho).
    destruct (bool_decide _) eqn:Eb.
    + left. exists i, v. apply edge_row_decide in Eb.
      repeat split; try apply Ho; [done|].
      destruct Ho as (-> & _). done.
    + right. split; [|done]. intros (i' & v' & Ho' & He).
      assert (H : non_nan_from 0 vals = [i']) by (apply non_nan_only; eauto).
      assert (i' = i) as -> by congruence.
      apply edge_row_decide in He. congruence.
  - right. split; [|done]. intros (i' & v' & Ho' & _).
    assert (H : non_nan_from 0 vals = [i']) by (apply non_nan_only; eauto).
    congruence.
Qed.

Lemma backfilled_idempotent (vals : list cell) :
  backfilled (backfilled vals) = backfilled vals.
Proof.
  destruct (backfilled_spec vals) as [(i & v & Ho & He & E)|(_ & E)];
    [|by rewrite !E].
  rewrite E.
  destruct (backfilled_spec (replicate (length vals) v))
    as [(i' & v' & Ho' & _ & E')|(_ & E')]; [|done].
  rewrite E', length_replicate. destruct Ho' as (Hv' & _).
  apply lookup_replicate in Hv' as [-> _]. done.
Qed.

(** ** Lines 233-239: the whole table *)

Lemma length_column_values (df : DataFrame) (k : nat) :
  length (column_values df k) = n_rows_of df.
Proof. unfold column_values, n_rows_of. apply length_fmap. Qed.

Lemma get_loc_middle (col : string) (pre post : list string) :
  col ∉ pre -> get_loc col (pre ++ col :: post) = inr (length pre).
Proof.
  induction pre as [|c pre IH]; intros Hn; simpl.
  - by rewrite decide_True.
  - apply not_elem_of_cons in Hn as [Hne Hn].
    rewrite decide_False by done. by rewrite IH.
Qed.

Lemma column_values_set_column_eq (df : DataFrame) (k : nat) (v : cell) :
  well_shaped df -> k < length (columns df) ->
  column_values (set_column df k v) k = replicate (n_rows_of df) v.
Proof.
  unfold well_shaped, column_values, set_column, n_rows_of. simpl.
  intros Hws Hk. induction (values df) as [|row rows IH]; [done|].
  apply Forall_cons in Hws as [Hrow Hws]. cbn [fmap list_fmap length replicate].
  rewrite list_lookup_insert_eq by lia. f_equal. by apply IH.
Qed.

Lemma column_values_set_column_ne (df : DataFrame) (k k' : nat) (v : cell) :
  k <> k' -> column_values (set_column df k v) k' = column_values df k'.
Proof.
  intros Hne. unfold column_values, set_column. simpl.
  rewrite <- list_fmap_compose. apply list_fmap_ext. intros _ row _. simpl.
  by rewrite list_lookup_insert_ne.
Qed.

Lemma well_shaped_set_column (df : DataFrame) (k : nat) (v : cell) :
  well_shaped df -> well_shaped (set_column df k v).
Proof.
  unfold well_shaped, set_column. simpl. intros H.
  apply Forall_fmap. eapply Forall_impl; [exact H|]. intros row Hrow. simpl.
  by rewrite length_insert.
Qed.

Lemma backfill_column_eq (col : string) (df : DataFrame) (k : nat) :
  well_shaped df -> k < length (columns df) ->
  get_loc col (columns df) = inr k ->
  exists df1,
    backfill_column col df = inr df1 /\
    columns df1 = columns df /\ well_shaped df1 /\
    n_rows_of df1 = n_rows_of df /\
    column_values df1 k = backfilled (column_values df k) /\
    forall k', k' <> k -> column_values df1 k' = column_values df k'.
Proof.
  intros Hws Hk Hloc. unfold backfill_column, backfilled.
  rewrite Hloc. cbn [exc_bind]. rewrite length_column_values.
  destruct (length (non_nan_from 0 (column_values df k)) =? 1) eqn:E1.
  2:{ exists df. eauto 10. }
  apply Nat.eqb_eq in E1.
  destruct (non_nan_from 0 (column_values df k)) as [|i rest] eqn:E;
    [done|].
  unfold getitem at 1. cbn [lookup list_lookup exc_bind].
  destruct (bool_decide _).
  2:{ exists df. eauto 10. }
  assert (Hi : i ∈ non_nan_from 0 (column_values df k)) by (rewrite E; left).
  apply non_nan_from_elem_of in Hi as (_ & v & Hv & _).
  rewrite Nat.sub_0_r in Hv. unfold getitem. rewrite Hv. cbn [exc_bind default].
  exists (set_column df k v). split; [done|]. split; [done|].
  split; [by apply well_shaped_set_column|].
  split; [unfold n_rows_of, set_column; simpl; apply length_fmap|].
  split; [by apply column_values_set_column_eq|].
  intros k' Hne. by apply column_values_set_column_ne.
Qed.

Lemma backfill_loop (ls pre : list string) (df : DataFrame) :
  columns df = pre ++ ls -> NoDup (columns df) -> well_shaped df ->
  exists df',
    for_each ls backfill_column df = inr df' /\
    columns df' = columns df /\ well_shaped df' /\
    n_rows_of df' = n_rows_of df /\
    forall k, column_values df' k =
      if decide (length pre <= k < length (columns df))
      then backfilled (column_values df k) else column_values df k.
Proof.
  revert pre df. induction ls as [|c ls IH]; intros pre df Hcols Hnd Hws.
  - exists df. repeat split; [done..|]. intros k.
    rewrite decide_False; [done|]. rewrite Hcols, length_app. simpl. lia.
  - assert (Hc : c ∉ pre).
    { rewrite Hcols in Hnd. apply NoDup_app in Hnd as (_ & Hd & _).
      intros Hin. apply (Hd c Hin). left. }
    assert (Hlen : length pre < length (columns df)).
    { rewrite Hcols, length_app. simpl. lia. }
    destruct (backfill_column_eq c df (length pre))
      as (df1 & E1 & Hc1 & Hws1 & Hn1 & Hk1 & Hother); [done | done | |].
    { rewrite Hcols. by apply get_loc_middle. }
    destruct (IH (pre ++ [c]) df1) as (df' & E' & Hc' & Hws' & Hn' & Hk').
    { rewrite Hc1, Hcols, <- app_assoc. done. }
    { by rewrite Hc1. }
    { done. }
    exists df'. cbn [for_each]. rewrite E1. cbn [exc_bind].
    split; [done|]. split; [congruence|]. split; [done|].
    split; [congruence|]. intros k. rewrite Hk', Hc1, length_app. simpl.
    destruct (decide (k = length pre)) as [->|Hne].
    + rewrite decide_False by lia. rewrite decide_True by lia. done.
    + rewrite Hother by done.
      destruct (decide (length pre + 1 <= k < _)).
      * by rewrite decide_True by lia.
      * by rewrite decide_False by lia.
Qed.

Lemma singleton_backfill_eq (df : DataFrame) :
  NoDup (columns df) -> well_shaped df ->
  exists df',
    singleton_backfill df = inr df' /\
    columns df' = columns df /\ well_shaped df' /\
    n_rows_of df' = n_rows_of df /\
    forall k, k < length (columns df) ->
      column_values df' k = backfilled (column_values df k).
Proof.
  intros Hnd Hws.
  destruct (backfill_loop (columns df) [] df) as (df' & E & Hc & Hw & Hn & Hk);
    [done..|].
  exists df'. repeat split; [done..|]. intros k Hlt. rewrite Hk.
  rewrite decide_True; [done|]. simpl. lia.
Qed.

(** Two tables with the same labels and the same columns are the same. *)
Lemma DataFrame_ext (df1 df2 : DataFrame) :
  columns df1 = columns df2 -> well_shaped df1 -> well_shaped df2 ->
  n_rows_of df1 = n_rows_of df2 ->
  (forall k, k < length (columns df1) ->
             column_values df1 k = column_values df2 k) ->
  df1 = df2.
Proof.
  destruct df1 as [c1 v1], df2 as [c2 v2].
  unfold well_shaped, n_rows_of, column_values. simpl.
  intros -> Hw1 Hw2 Hn Hcol. f_equal.
  apply list_eq_same_length with (length v1); [done | done |].
  intros i r1 r2 Hi H1 H2.
  rewrite Forall_lookup in Hw1, Hw2.
  pose proof (Hw1 i r1 H1) as L1. pose proof (Hw2 i r2 H2) as L2.
  apply list_eq_same_length with (length c2); [done | done |].
  intros k x1 x2 Hk Hx1 Hx2.
  specialize (Hcol k Hk).
  assert (H : ((fun row : list cell => default NaN (row !! k)) <$> v1) !! i =
              ((fun row : list cell => default NaN (row !! k)) <$> v2) !! i)
    by (by rewrite Hcol).
  rewrite !list_lookup_fmap, H1, H2 in H. simpl in H.
  rewrite Hx1, Hx2 in H. simpl in H. congruence.
Qed.

(** ** [_text_to_df] as a whole *)

Lemma length_usable_blocks (f : list string) :
  length (usable_blocks f) = usable f.
Proof. unfold usable_blocks, blocks_from. by rewrite length_fmap, length_seq. Qed.

Lemma materialize_usable (f : list string) :
  materialize f (mkFrames (starts_of f) (ends_of f) (usable f)) =
  if all_colons (usable_blocks f) then inr (materialized f)
  else inl ValueError.
Proof.
  rewrite materialize_eq by (unfold usable; lia). reflexivity.
Qed.

Lemma materialized_NoDup (f : list string) : NoDup (columns (materialized f)).
Proof. apply fromkeys_NoDup. Qed.

Lemma materialized_well_shaped (f : list string) : well_shaped (materialized f).
Proof.
  unfold well_shaped, materialized. cbn [columns values].
  apply Forall_fmap, Forall_forall. intros blk _. apply length_row_of.
Qed.

Lemma materialized_n_rows (f : list string) :
  n_rows_of (materialized f) = usable f.
Proof.
  unfold n_rows_of, materialized. cbn [values].
  by rewrite length_fmap, length_usable_blocks.
Qed.

Lemma text_to_df_unfold (remove_unicode : string -> string)
    (text_data : list string) (w : world) :
  let f := remove_unicode <$> text_data in
  _text_to_df remove_unicode text_data w =
  match markers_mismatch (starts_of f) (ends_of f) with
  | inl e => (w, inl e)
  | inr warn =>
      (if warn : bool then warned w else w,
       df <~ materialize f (mkFrames (starts_of f) (ends_of f) (usable f)) ;;
       singleton_backfill df)
  end.
Proof.
  cbv zeta. unfold _text_to_df, block_extractor, bind, lift, ret, print.
  fold (starts_of (remove_unicode <$> text_data)).
  fold (ends_of (remove_unicode <$> text_data)).
  fold (usable (remove_unicode <$> text_data)).
  destruct (markers_mismatch _ _) as [e|[|]]; [done| |];
    by destruct (materialize _ _).
Qed.

(** When a table comes back, and which. *)
Lemma text_to_df_inv (remove_unicode : string -> string)
    (text_data : list string) (w w' : world) (df : DataFrame) :
  let f := remove_unicode <$> text_data in
  _text_to_df remove_unicode text_data w = (w', inr df) ->
  exists warn,
    markers_mismatch (starts_of f) (ends_of f) = inr warn /\
    w' = (if warn : bool then warned w else w) /\
    all_colons (usable_blocks f) = true /\
    singleton_backfill (materialized f) = inr df.
Proof.
  cbv zeta. rewrite text_to_df_unfold. cbv zeta.
  destruct (markers_mismatch _ _) as [e|warn]; [done|].
  rewrite materialize_usable.
  destruct (all_colons _); [|done]. cbn [exc_bind].
  intros [= <- H]. exists warn. done.
Qed.

Lemma text_to_df_total (remove_unicode : string -> string)
    (text_data : list string) (w : world) (warn : bool) :
  let f := remove_unicode <$> text_data in
  markers_mismatch (starts_of f) (ends_of f) = inr warn ->
  all_colons (usable_blocks f) = true ->
  exists df,
    _text_to_df remove_unicode text_data w =
      (if warn then warned w else w, inr df) /\
    singleton_backfill (materialized f) = inr df.
Proof.
  cbv zeta. intros Hm Hc. rewrite text_to_df_unfold. cbv zeta.
  rewrite Hm, materialize_usable, Hc. cbn [exc_bind].
  destruct (singleton_backfill_eq (materialized (remove_unicode <$> text_data)))
    as (df & E & _); [apply materialized_NoDup | apply materialized_well_shaped |].
  exists df. by rewrite E.
Qed.

Lemma markers_mismatch_inr (starts ends : list nat) :
  (exists warn, markers_mismatch starts ends = inr warn) <->
  starts <> [] \/ ends <> [].
Proof.
  split.
  - intros [warn H]. destruct starts, ends; first [by left | by right].
  - intros H. unfold markers_mismatch.
    destruct (Nat.eqb_spec (length starts) (length ends)) as [E|E]; simpl;
      [|eauto].
    destruct starts as [|s starts], ends as [|e ends]; simpl in *;
      try done; [by destruct H | eauto].
Qed.

(** A cell that holds a value keeps it. *)
Lemma backfilled_keeps (vals : list cell) (i : nat) (c : cell) :
  vals !! i = Some c -> c <> NaN -> backfilled vals !! i = Some c.
Proof.
  intros Hc Hn.
  destruct (backfilled_spec vals) as [(i0 & v & Ho & _ & E)|(_ & E)];
    rewrite E; [|done].
  destruct Ho as (Hv & _ & Huniq).
  assert (i = i0) as -> by (by eapply Huniq).
  rewrite Hv in Hc. injection Hc as ->.
  apply lookup_replicate_2. by eapply lookup_lt_Some.
Qed.

Lemma column_values_lookup (df : DataFrame) (k i : nat) (row : list cell) :
  values df !! i = Some row ->
  column_values df k !! i = Some (default NaN (row !! k)).
Proof. intros H. unfold column_values. by rewrite list_lookup_fmap, H. Qed.

Lemma text_to_df_shape (remove_unicode : string -> string)
    (text_data : list string) (w w' : world) (df : DataFrame) :
  let f := remove_unicode <$> text_data in
  _text_to_df remove_unicode text_data w = (w', inr df) ->
  columns df = columns (materialized f) /\ well_shaped df /\
  n_rows_of df = usable f /\
  forall k, k < length (columns df) ->
    column_values df k = backfilled (column_values (materialized f) k).
Proof.
  cbv zeta. intros H. apply text_to_df_inv in H as (warn & _ & _ & _ & Hb).
  destruct (singleton_backfill_eq (materialized (remove_unicode <$> text_data)))
    as (df' & E & Hc & Hw & Hn & Hk);
    [apply materialized_NoDup | apply materialized_well_shaped |].
  rewrite E in Hb. injection Hb as <-.
  rewrite materialized_n_rows in Hn. rewrite Hc. done.
Qed.

Lemma materialized_row (f : list string) (i : nat) (blk : list string) :
  usable_blocks f !! i = Some blk ->
  values (materialized f) !! i =
  Some (row_of (columns (materialized f)) blk).
Proof.
  intros H. unfold materialized. cbn [values columns].
  by rewrite list_lookup_fmap, H.
Qed.

(** C1. When [_text_to_df] produces a table, the table has
    [min(len(start_index), len(end_index))] rows, hence [N] rows when [N]
    start markers face [N] end markers, and row [i] carries the values of
    block [i]: under every column whose key the block mentions stands the
    value of the block's last line for that key.  A table is produced
    exactly when the log has a marker and every line of every usable block
    has a colon. *)
Theorem text_to_df_row_count (remove_unicode : string -> string)
    (text_data : list string) (w : world) :
  let f := remove_unicode <$> text_data in
  ((exists w' df, _text_to_df remove_unicode text_data w = (w', inr df)) <->
   (starts_of f <> [] \/ ends_of f <> []) /\
   all_colons (usable_blocks f) = true) /\
  forall w' df,
    _text_to_df remove_unicode text_data w = (w', inr df) ->
    n_rows_of df = min (length (starts_of f)) (length (ends_of f)) /\
    (forall N, length (starts_of f) = N -> length (ends_of f) = N ->
               n_rows_of df = N) /\
    forall i blk,
      usable_blocks f !! i = Some blk ->
      exists row,
        values df !! i = Some row /\
        forall k h line,
          columns df !! k = Some h ->
          last (lines_with h blk) = Some line ->
          row !! k = Some (Str (value_of line)).
Proof.
  cbv zeta. set (f := remove_unicode <$> text_data). split.
  - split.
    + intros (w' & df & H). apply text_to_df_inv in H as (warn & Hm & _ & Hc & _).
      split; [|done]. apply markers_mismatch_inr. eauto.
    + intros [Hm Hc]. apply markers_mismatch_inr in Hm as [warn Hm].
      destruct (text_to_df_total remove_unicode text_data w warn Hm Hc)
        as (df & E & _). eauto.
  - intros w' df H.
    destruct (text_to_df_shape _ _ _ _ _ H) as (Hcols & Hws & Hn & Hk).
    fold f in Hcols, Hn, Hk.
    split; [exact Hn|]. split.
    { intros N Hs He. rewrite Hn. unfold usable. lia. }
    intros i blk Hblk.
    assert (Hi : i < n_rows_of df).
    { rewrite Hn, <- length_usable_blocks. by eapply lookup_lt_Some. }
    destruct (lookup_lt_is_Some_2 (values df) i Hi) as [row Hrow].
    exists row. split; [done|]. intros k h line Hh Hlast.
    assert (Hklt : k < length (columns df)) by (by eapply lookup_lt_Some).
    pose proof (Forall_lookup_1 _ _ _ _ Hws Hrow) as Hlen. simpl in Hlen.
    destruct (lookup_lt_is_Some_2 row k) as [c Hc]; [lia|].
    pose proof (column_values_lookup df k i row Hrow) as Hcv.
    rewrite Hc in Hcv. simpl in Hcv. rewrite Hk in Hcv by done.
    pose proof (materialized_row f i blk Hblk) as Hrow0.
    pose proof (column_values_lookup (materialized f) k i _ Hrow0) as Hcv0.
    rewrite Hcols in Hh.
    rewrite (row_of_lookup _ blk k h Hh), Hlast in Hcv0. simpl in Hcv0.
    rewrite (backfilled_keeps _ _ _ Hcv0) in Hcv by done.
    by injection Hcv as <-.
Qed.

Lemma text_to_df_row_count_witness :
  exists df,
    _text_to_df keep_line demo_log empty_world = (empty_world, inr df) /\
    n_rows_of df = 2.
Proof.
  eexists. split; [reflexivity|].
  exact (proj1 (proj2 (proj2 (text_to_df_row_count keep_line demo_log empty_world)
                         empty_world _ eq_refl))
           2 eq_refl eq_refl).
Defined.

(** C2. When the numbers of start and end markers differ, or the first
    start marker does not come before the first end marker, the block
    extractor prints the warning, raises nothing and hands on
    [min(len(start_index), len(end_index))] as the number of rows; the
    parser then goes on to a table of that many rows whenever the lines of
    these blocks can be split.  Logs without start markers or without end
    markers are included: the lengths then differ and the first indices are
    never read. *)
Theorem block_extractor_mismatch (remove_unicode : string -> string)
    (text_data : list string) (w : world) :
  let f := remove_unicode <$> text_data in
  length (starts_of f) <> length (ends_of f) \/
  (exists s0 e0, starts_of f !! 0 = Some s0 /\ ends_of f !! 0 = Some e0 /\
                 e0 <= s0) ->
  block_extractor f w =
    (warned w,
     inr (mkFrames (starts_of f) (ends_of f)
            (min (length (starts_of f)) (length (ends_of f))))) /\
  (all_colons (usable_blocks f) = true ->
   exists df,
     _text_to_df remove_unicode text_data w = (warned w, inr df) /\
     n_rows_of df = min (length (starts_of f)) (length (ends_of f))).
Proof.
  cbv zeta. set (f := remove_unicode <$> text_data). intros H.
  assert (Hm : markers_mismatch (starts_of f) (ends_of f) = inr true).
  { destruct (decide (length (starts_of f) = length (ends_of f))) as [E|E].
    - destruct H as [H|(s0 & e0 & Hs & He & Hle)]; [done|].
      rewrite (markers_mismatch_heads _ _ s0 e0) by done.
      f_equal. by apply Nat.leb_le.
    - by apply markers_mismatch_differ. }
  split.
  - unfold block_extractor, bind, lift, print, ret, warned.
    fold (starts_of f). fold (ends_of f). by rewrite Hm.
  - intros Hc.
    destruct (text_to_df_total remove_unicode text_data w true Hm Hc)
      as (df & E & _).
    exists df. split; [exact E|].
    by destruct (text_to_df_shape _ _ _ _ _ E) as (_ & _ & Hn & _).
Qed.

Lemma block_extractor_mismatch_witness :
  block_extractor uneven_log empty_world =
    (warned empty_world, inr (mkFrames [0; 3; 6] [2; 5] 2)) /\
  block_extractor ["*** LogFrame End ***"] empty_world =
    (warned empty_world, inr (mkFrames [] [0] 0)).
Proof.
  split.
  - refine (proj1 (block_extractor_mismatch keep_line uneven_log empty_world _)).
    left. vm_compute. lia.
  - refine (proj1 (block_extractor_mismatch keep_line ["*** LogFrame End ***"]
                     empty_world _)).
    left. vm_compute. lia.
Defined.

(** ** Lines without a colon *)

Lemma elem_of_concat {A} (x : A) (ls : list (list A)) :
  x ∈ concat ls <-> exists l, l ∈ ls /\ x ∈ l.
Proof.
  induction ls as [|l ls IH]; simpl.
  - split; [intros H; inversion H | intros (l & H & _); inversion H].
  - rewrite elem_of_app, IH. split.
    + intros [H|(l' & H1 & H2)]; [exists l; split; [left | done]|].
      exists l'. split; [by right | done].
    + intros (l' & H1 & H2). apply elem_of_cons in H1 as [->|H1]; [by left|].
      right. eauto.
Qed.

Lemma forallb_has_colon (blk : list string) :
  forallb has_colon blk = true <->
  forall line, line ∈ blk -> has_colon line = true.
Proof.
  induction blk as [|l blk IH]; simpl.
  - split; [intros _ line H; inversion H | done].
  - rewrite andb_true_iff, IH. split.
    + intros [H1 H2] line [->|H]%elem_of_cons; auto.
    + intros H. split; [apply H; left|]. intros line Hl. apply H. by right.
Qed.

Lemma all_colons_spec (bs : list (list string)) :
  all_colons bs = true <->
  forall blk line, blk ∈ bs -> line ∈ blk -> has_colon line = true.
Proof.
  unfold all_colons. induction bs as [|b bs IH]; simpl.
  - split; [intros _ blk line H; inversion H | done].
  - rewrite andb_true_iff, IH, forallb_has_colon. split.
    + intros [H1 H2] blk line [->|H]%elem_of_cons; eauto.
    + intros H. split.
      * intros line Hl. apply (H b); [left | done].
      * intros blk line Hb. apply H. by right.
Qed.

(** C10. A line without a colon between a start marker and its end marker
    makes [_text_to_df] raise [ValueError]; so a table comes back only
    from logs all of whose block lines have a colon. *)
Theorem colon_free_line_raises (remove_unicode : string -> string)
    (text_data : list string) (w : world) :
  let f := remove_unicode <$> text_data in
  (forall i blk line,
     usable_blocks f !! i = Some blk -> line ∈ blk ->
     PyStr.find colon line = None ->
     exists w', _text_to_df remove_unicode text_data w = (w', inl ValueError)) /\
  (forall w' df,
     _text_to_df remove_unicode text_data w = (w', inr df) ->
     forall i blk line,
       usable_blocks f !! i = Some blk -> line ∈ blk ->
       is_Some (PyStr.find colon line)).
Proof.
  cbv zeta. set (f := remove_unicode <$> text_data). split.
  - intros i blk line Hblk Hline Hfind.
    assert (Hpos : 0 < usable f).
    { rewrite <- length_usable_blocks. apply lookup_lt_Some in Hblk. lia. }
    destruct (markers_mismatch_defined (starts_of f) (ends_of f) Hpos)
      as [warn Hm].
    rewrite text_to_df_unfold. cbv zeta. fold f.
    rewrite Hm, materialize_usable.
    destruct (all_colons (usable_blocks f)) eqn:Hc.
    + exfalso. rewrite all_colons_spec in Hc.
      specialize (Hc blk line (list_elem_of_lookup_2 _ _ _ Hblk) Hline).
      rewrite has_colon_None in Hc by done. discriminate.
    + cbn [exc_bind]. eauto.
  - intros w' df H i blk line Hblk Hline.
    apply text_to_df_inv in H as (_ & _ & _ & Hc & _). fold f in Hc.
    rewrite all_colons_spec in Hc.
    specialize (Hc blk line (list_elem_of_lookup_2 _ _ _ Hblk) Hline).
    apply has_colon_true in Hc as [j ->]. eauto.
Qed.

Lemma colon_free_line_raises_witness :
  _text_to_df keep_line blank_line_log empty_world =
    (empty_world, inl ValueError).
Proof.
  destruct (proj1 (colon_free_line_raises keep_line blank_line_log empty_world)
              0 ["a: 1"; ""] "" eq_refl) as [w' H].
  - right. left.
  - reflexivity.
  - rewrite H. vm_compute in H. injection H as <-. reflexivity.
Defined.

(** C3. For a log whose block lines all have a colon, lines 207-231 yield a
    table in which the row of each block has one cell per header, in the
    order of the headers; the cell under a header is null exactly when no
    line of the block has that key, and otherwise holds the left-stripped
    value of the last line of the block with that key. *)
Theorem materialized_row_cells (f : list string) :
  all_colons (usable_blocks f) = true ->
  exists df,
    materialize f (mkFrames (starts_of f) (ends_of f) (usable f)) = inr df /\
    n_rows_of df = usable f /\
    forall i blk,
      usable_blocks f !! i = Some blk ->
      exists row,
        values df !! i = Some row /\
        length row = length (columns df) /\
        forall k h,
          columns df !! k = Some h ->
          (row !! k = Some NaN <->
           forall line, line ∈ blk -> key_of line <> h) /\
          (forall line,
             last (lines_with h blk) = Some line ->
             row !! k = Some (Str (value_of line))).
Proof.
  intros Hc. exists (materialized f). rewrite materialize_usable, Hc.
  split; [done|]. split; [apply materialized_n_rows|].
  intros i blk Hblk. exists (row_of (columns (materialized f)) blk).
  split; [by apply materialized_row|]. split; [apply length_row_of|].
  intros k h Hh. rewrite (row_of_lookup _ blk k h Hh). split.
  - destruct (last (lines_with h blk)) as [line|] eqn:El.
    + split; [done|]. intros Hno. exfalso.
      apply last_Some_elem_of in El. unfold lines_with in El.
      apply list_elem_of_filter in El as [Hk Hin]. by apply (Hno line).
    + split; [|done]. intros _ line Hin Hk.
      apply last_None in El. unfold lines_with in El.
      by apply (filter_nil_not_elem_of _ _ line El Hk).
  - by intros line ->.
Qed.

Lemma materialized_row_cells_witness :
  exists df,
    materialize demo_log
      (mkFrames (starts_of demo_log) (ends_of demo_log) (usable demo_log)) =
      inr df /\
    values df = [[Str "1"; Str "2"; NaN]; [Str "4"; NaN; Str "x"]].
Proof.
  destruct (materialized_row_cells demo_log eq_refl) as (df & E & _).
  exists df. split; [exact E|].
  vm_compute in E. injection E as <-. reflexivity.
Defined.

(** C4. The column labels of the table are the keys of the lines of the
    usable blocks, each once, in the order in which the scan first meets
    them; the key of every line of every usable block, whichever block it
    is, is among them. *)
Theorem header_set_first_seen (remove_unicode : string -> string)
    (text_data : list string) (w w' : world) (df : DataFrame) :
  let f := remove_unicode <$> text_data in
  let keys := key_of <$> concat (usable_blocks f) in
  _text_to_df remove_unicode text_data w = (w', inr df) ->
  columns df = OrderedDict_fromkeys keys /\
  NoDup (columns df) /\
  (forall h, h ∈ columns df <-> h ∈ keys) /\
  (forall i blk line,
     usable_blocks f !! i = Some blk -> line ∈ blk ->
     key_of line ∈ columns df) /\
  (forall a b i j i' j',
     first_index a keys = Some i -> first_index b keys = Some j ->
     first_index a (columns df) = Some i' ->
     first_index b (columns df) = Some j' ->
     (i' < j' <-> i < j)).
Proof.
  cbv zeta. intros H.
  destruct (text_to_df_shape _ _ _ _ _ H) as (Hcols & _).
  unfold materialized in Hcols. cbn [columns] in Hcols. rewrite Hcols.
  split; [done|]. split; [apply fromkeys_NoDup|].
  split; [intros h; apply fromkeys_elem_of|]. split.
  - intros i blk line Hblk Hline. apply fromkeys_elem_of.
    apply list_elem_of_fmap_2. apply elem_of_concat. exists blk.
    split; [by eapply list_elem_of_lookup_2 | done].
  - intros a b i j i' j'. apply fromkeys_order.
Qed.

Lemma header_set_first_seen_witness :
  exists df,
    _text_to_df keep_line demo_log empty_world = (empty_world, inr df) /\
    columns df = ["k1"; "k2"; "k3"].
Proof.
  eexists. split; [reflexivity|].
  exact (proj1 (header_set_first_seen keep_line demo_log empty_world
                  empty_world _ eq_refl)).
Defined.

(** C5. Singleton Backfill, column by column: a column whose only value
    stands in the first row, the last row or the row before the last holds
    that value in every row afterwards; any other column is left as it
    was. *)
Theorem singleton_backfill_columns (df : DataFrame) :
  NoDup (columns df) -> well_shaped df ->
  exists df',
    singleton_backfill df = inr df' /\
    columns df' = columns df /\
    n_rows_of df' = n_rows_of df /\
    forall k,
      k < length (columns df) ->
      (forall i v,
         only_value_at (column_values df k) i v ->
         edge_row (n_rows_of df) i ->
         column_values df' k = replicate (n_rows_of df) v) /\
      (~ (exists i v, only_value_at (column_values df k) i v /\
                      edge_row (n_rows_of df) i) ->
       column_values df' k = column_values df k).
Proof.
  intros Hnd Hws.
  destruct (singleton_backfill_eq df Hnd Hws) as (df' & E & Hc & _ & Hn & Hk).
  exists df'. repeat split; [done..| |].
  - intros i v Ho He. rewrite Hk by done.
    destruct (backfilled_spec (column_values df k))
      as [(i0 & v0 & Ho0 & _ & ->)|(Hno & _)].
    + rewrite length_column_values. f_equal.
      destruct Ho as (Hv & Hn' & _), Ho0 as (Hv0 & _ & Huniq).
      assert (i = i0) as -> by (by eapply Huniq). congruence.
    + exfalso. apply Hno. exists i, v.
      by rewrite length_column_values.
  - intros Hno. rewrite Hk by done.
    destruct (backfilled_spec (column_values df k))
      as [(i0 & v0 & Ho0 & He0 & _)|(_ & ->)]; [|done].
    exfalso. apply Hno. exists i0, v0.
    by rewrite length_column_values in He0.
Qed.

Lemma singleton_backfill_columns_witness :
  singleton_backfill five_rows =
  inr (mkDataFrame ["meta"; "meta2"; "meta3"; "none"; "two"]
         [[Str "v"; NaN; Str "p"; NaN; Str "a"];
          [Str "v"; NaN; Str "p"; NaN; NaN];
          [Str "v"; Str "m"; Str "p"; NaN; NaN];
          [Str "v"; NaN; Str "p"; NaN; Str "b"];
          [Str "v"; NaN; Str "p"; NaN; NaN]]).
Proof.
  assert (Hnd : NoDup (columns five_rows)).
  { apply (bool_decide_unpack _). vm_compute. exact I. }
  assert (Hws : well_shaped five_rows) by (repeat constructor).
  destruct (singleton_backfill_columns five_rows Hnd Hws) as (df' & E & _).
  rewrite E. vm_compute in E. injection E as <-. reflexivity.
Defined.

(** C6. Singleton Backfill is idempotent: run on its own result it returns
    that result. *)
Theorem singleton_backfill_idempotent (df : DataFrame) :
  NoDup (columns df) -> well_shaped df ->
  exists df',
    singleton_backfill df = inr df' /\ singleton_backfill df' = inr df'.
Proof.
  intros Hnd Hws.
  destruct (singleton_backfill_eq df Hnd Hws) as (df1 & E1 & Hc1 & Hw1 & Hn1 & Hk1).
  exists df1. split; [done|].
  destruct (singleton_backfill_eq df1) as (df2 & E2 & Hc2 & Hw2 & Hn2 & Hk2);
    [by rewrite Hc1 | done |].
  rewrite E2. f_equal. apply DataFrame_ext; [done..|].
  intros k Hk. rewrite Hc2 in Hk. rewrite Hk2 by done.
  rewrite Hc1 in Hk. rewrite Hk1 by done. apply backfilled_idempotent.
Qed.

Lemma singleton_backfill_idempotent_witness :
  exists df',
    singleton_backfill five_rows = inr df' /\
    singleton_backfill df' = inr df'.
Proof.
  apply singleton_backfill_idempotent.
  - apply (bool_decide_unpack _). vm_compute. exact I.
  - repeat constructor.
Defined.

(** ** Line 174: the merge of columns *)

Lemma append_cons (a : ascii) (s t : string) :
  String a s +:+ t = String a (s +:+ t).
Proof. reflexivity. Qed.

Lemma append_assoc (s t u : string) : (s +:+ t) +:+ u = s +:+ (t +:+ u).
Proof.
  induction s as [|a s IH]; [done|]. by rewrite !append_cons, IH.
Qed.

Lemma first_index_Some (x : string) (l : list string) (i : nat) :
  first_index x l = Some i -> l !! i = Some x.
Proof.
  revert i. induction l as [|y l IH]; intros i; simpl; [done|].
  destruct (decide (y = x)) as [->|Hne]; [by intros [= <-]|].
  destruct (first_index x l) as [j|]; simpl; [|done].
  intros [= <-]. by apply IH.
Qed.

Lemma first_index_elem_of (x : string) (l : list string) :
  x ∈ l -> exists i, first_index x l = Some i.
Proof.
  intros Hx. destruct (first_index x l) as [i|] eqn:E; [eauto|].
  by apply first_index_None in E.
Qed.

Lemma locs_from_absent (a : nat) (cols : list string) (s : string) :
  s ∉ cols ->
  filter (fun kc : nat * string => snd kc = s) (enumerate_from a cols) = [].
Proof.
  revert a. induction cols as [|c cols IH]; intros a Hn; [done|].
  apply not_elem_of_cons in Hn as [Hne Hn]. cbn [enumerate_from].
  rewrite filter_cons, decide_False by (simpl; congruence). by apply IH.
Qed.

Lemma locs_from_unique (a : nat) (cols : list string) (s : string) (k : nat) :
  NoDup cols -> cols !! k = Some s ->
  fst <$> filter (fun kc : nat * string => snd kc = s) (enumerate_from a cols) =
  [a + k].
Proof.
  revert a k. induction cols as [|c cols IH]; intros a k Hnd Hk; [done|].
  apply NoDup_cons in Hnd as [Hc Hnd]. cbn [enumerate_from].
  rewrite filter_cons. destruct k as [|k]; simpl in Hk.
  - injection Hk as ->. rewrite decide_True by done.
    rewrite locs_from_absent by done. simpl. f_equal. lia.
  - rewrite decide_False.
    + rewrite (IH (S a) k) by done. f_equal. lia.
    + simpl. intros ->. apply Hc. by eapply list_elem_of_lookup_2.
Qed.

Lemma locs_unique (cols : list string) (s : string) (k : nat) :
  NoDup cols -> first_index s cols = Some k -> locs s cols = [k].
Proof.
  intros Hnd Hk. unfold locs.
  by rewrite (locs_from_unique 0 cols s k Hnd (first_index_Some _ _ _ Hk)).
Qed.

Lemma selected_cells (df : DataFrame) (sources : list string) (row : list cell) :
  NoDup (columns df) -> Forall (fun l => l ∈ columns df) sources ->
  (fun k => default NaN (row !! k)) <$>
    flat_map (fun l => locs l (columns df)) sources =
  label_cell df row <$> sources.
Proof.
  intros Hnd Hall. induction Hall as [|s sources Hs _ IH]; [done|].
  cbn [flat_map]. rewrite fmap_app, IH.
  destruct (first_index_elem_of _ _ Hs) as [k Hk].
  rewrite (locs_unique _ _ _ Hnd Hk). cbn [fmap list_fmap app].
  f_equal. unfold label_cell. by rewrite Hk.
Qed.

Lemma getitem_columns_rows (df : DataFrame) (sources : list string) :
  NoDup (columns df) -> Forall (fun l => l ∈ columns df) sources ->
  exists sub,
    getitem_columns df sources = inr sub /\
    values sub = (fun row => label_cell df row <$> sources) <$> values df.
Proof.
  intros Hnd Hall. unfold getitem_columns.
  rewrite bool_decide_eq_true_2 by done.
  eexists. split; [reflexivity|]. cbn [values].
  apply list_fmap_ext. intros _ row _. by apply selected_cells.
Qed.

Lemma add_loop_text (rest : list cell) (a : string) :
  Forall (fun c => forall z, c <> Num z) rest ->
  for_each (fillna_empty <$> rest) (fun x acc => py_add acc x) (Str a) =
  inr (Str (a +:+ concat_text (text_of <$> rest))).
Proof.
  revert a. induction rest as [|c rest IH]; intros a Hall.
  - simpl. f_equal. f_equal. induction a as [|x a IHa]; [done|].
    by rewrite append_cons, <- IHa.
  - apply Forall_cons in Hall as [Hc Hall].
    cbn [fmap list_fmap for_each].
    destruct c as [|s|z]; [| |by destruct (Hc z)]; cbn [fillna_empty py_add exc_bind].
    + rewrite IH by done. cbn [text_of concat_text foldr].
      by rewrite append_assoc.
    + rewrite IH by done. cbn [text_of concat_text foldr].
      by rewrite append_assoc.
Qed.

Lemma row_sum_text (row : list cell) :
  row <> [] -> Forall (fun c => forall z, c <> Num z) row ->
  row_sum (fillna_empty <$> row) = inr (Str (concat_text (text_of <$> row))).
Proof.
  intros Hne Hall. destruct row as [|c rest]; [done|].
  apply Forall_cons in Hall as [Hc Hall].
  cbn [fmap list_fmap row_sum].
  destruct c as [|s|z]; [| |by destruct (Hc z)]; cbn [fillna_empty];
    by rewrite add_loop_text.
Qed.

Lemma label_cell_text (df : DataFrame) (row : list cell) (s : string) :
  Forall (fun c => forall z, c <> Num z) row ->
  forall z, label_cell df row s <> Num z.
Proof.
  intros Hall z. unfold label_cell.
  destruct (first_index s (columns df)) as [k|]; [|done].
  destruct (row !! k) as [c|] eqn:E; [|done]. simpl.
  by apply (Forall_lookup_1 _ _ _ _ Hall E).
Qed.

Lemma map_exc_fmap_pure {A B C} (f : B -> Exc C) (h : A -> B) (g : A -> C)
    (xs : list A) :
  (forall x, x ∈ xs -> f (h x) = inr (g x)) ->
  map_exc f (h <$> xs) = inr (g <$> xs).
Proof.
  induction xs as [|x xs IH]; intros H; [done|].
  cbn [fmap list_fmap map_exc]. rewrite H by left. cbn [exc_bind].
  fold (h <$> xs). rewrite IH; [done|]. intros y Hy. apply H. by right.
Qed.

Lemma zip_with_fmap_same {A B C} (F : A -> B -> C) (g : A -> B) (xs : list A) :
  zip_with F xs (g <$> xs) = (fun x => F x (g x)) <$> xs.
Proof.
  induction xs as [|x xs IH]; [done|].
  cbn [fmap list_fmap zip_with]. f_equal. exact IH.
Qed.

Lemma merge_one_values (df : DataFrame) (dest : string) (sources : list string) :
  NoDup (columns df) -> text_only df ->
  Forall (fun l => l ∈ columns df) sources -> sources <> [] ->
  merge_one dest sources df =
  inr (setitem_column df dest
         ((fun row =>
             Str (concat_text
                    ((fun s => text_of (label_cell df row s)) <$> sources)))
          <$> values df)).
Proof.
  intros Hnd Htext Hall Hne. unfold merge_one.
  destruct (getitem_columns_rows df sources Hnd Hall) as (sub & E1 & E2).
  rewrite E1. cbn [exc_bind]. rewrite E2.
  rewrite (map_exc_fmap_pure _ _
             (fun row =>
                Str (concat_text
                       ((fun s => text_of (label_cell df row s)) <$> sources)))).
  - reflexivity.
  - intros row Hrow. rewrite row_sum_text.
    + by rewrite <- list_fmap_compose.
    + by destruct sources.
    + apply Forall_fmap, Forall_forall. intros s _. simpl.
      apply label_cell_text. unfold text_only in Htext.
      rewrite Forall_forall in Htext. by apply Htext.
Qed.

(** C7 (amended). For a destination and a non-empty list of source columns,
    all of them columns of a table of texts and nulls with distinct labels,
    the merge of line 174 succeeds and sets, in every row, the destination
    cell to the texts of that row's source cells joined from left to right,
    a null counting as the empty text. *)
Theorem merge_one_concatenates (df : DataFrame) (dest : string)
    (sources : list string) :
  NoDup (columns df) -> well_shaped df -> text_only df ->
  Forall (fun l => l ∈ columns df) sources ->
  sources <> [] ->
  merge_concatenates df dest sources.
Proof.
  intros Hnd Hws Htext Hall Hne. unfold merge_concatenates.
  rewrite merge_one_values by done.
  set (g := fun row : list cell =>
              Str (concat_text
                     ((fun s => text_of (label_cell df row s)) <$> sources))).
  eexists. split; [reflexivity|].
  unfold setitem_column. destruct (decide (dest ∈ columns df)) as [Hin|Hnin].
  - destruct (first_index_elem_of _ _ Hin) as [kd Hkd].
    rewrite (locs_unique _ _ _ Hnd Hkd), zip_with_fmap_same.
    cbn [columns values n_rows_of foldl].
    split; [unfold n_rows_of; cbn [values]; apply length_fmap|].
    split; [done|]. intros i row Hrow.
    exists (<[kd := g row]> row). rewrite list_lookup_fmap, Hrow.
    split; [done|]. intros k Hk.
    assert (k = kd) as ->.
    { eapply NoDup_lookup; [exact Hnd | exact Hk |].
      by apply first_index_Some. }
    apply list_lookup_insert_eq.
    rewrite (Forall_lookup_1 _ _ _ _ Hws Hrow). by eapply lookup_lt_Some.
  - rewrite zip_with_fmap_same. cbn [columns values].
    split; [unfold n_rows_of; cbn [values]; apply length_fmap|].
    split; [apply elem_of_app; right; left|]. intros i row Hrow.
    exists (row ++ [g row]). rewrite list_lookup_fmap, Hrow.
    split; [done|]. intros k Hk.
    assert (k = length (columns df)) as ->.
    { destruct (decide (k < length (columns df))) as [Hlt|Hge].
      - rewrite lookup_app_l in Hk by done.
        exfalso. apply Hnin. by eapply list_elem_of_lookup_2.
      - rewrite lookup_app_r in Hk by lia.
        destruct (k - length (columns df)) as [|n] eqn:E; [lia|].
        by destruct n. }
    rewrite <- (Forall_lookup_1 _ _ _ _ Hws Hrow).
    rewrite lookup_app_r by lia. by rewrite Nat.sub_diag.
Qed.

Lemma merge_one_concatenates_witness :
  merge_one "C" ["A"; "B"] merge_example =
  inr (mkDataFrame ["A"; "B"; "C"]
         [[Str "x"; NaN; Str "x"]; [Str "1"; Str "2"; Str "12"]]).
Proof.
  assert (H : merge_concatenates merge_example "C" ["A"; "B"]).
  { apply merge_one_concatenates.
    - apply (bool_decide_unpack _). vm_compute. exact I.
    - repeat constructor.
    - repeat constructor; discriminate.
    - repeat constructor.
    - discriminate. }
  destruct H as (df' & E & _). rewrite E.
  vm_compute in E. injection E as <-. reflexivity.
Defined.

(** C7 as stated, without the restriction to non-empty lists, fails: with no
    source column the row sum is the number zero, not the empty text. *)
Lemma merge_one_empty_sources_counterexample :
  ~ (forall (df : DataFrame) (dest : string) (sources : list string),
       NoDup (columns df) -> well_shaped df -> text_only df ->
       Forall (fun l => l ∈ columns df) sources ->
       merge_concatenates df dest sources).
Proof.
  intros H.
  destruct (H (mkDataFrame ["A"] [[Str "x"]]) "X" []) as (df' & E & _ & _ & Hrow).
  - apply (bool_decide_unpack _). vm_compute. exact I.
  - repeat constructor.
  - repeat constructor; discriminate.
  - constructor.
  - vm_compute in E. injection E as <-.
    destruct (Hrow 0 [Str "x"] eq_refl) as (row' & Hr & Hcell).
    injection Hr as <-. specialize (Hcell 1 eq_refl). discriminate.
Qed.

(** ** The selection of lines 85 and 182 *)

Lemma getitem_columns_missing (df : DataFrame) (labels : list string)
    (h : string) :
  h ∈ labels -> h ∉ columns df -> getitem_columns df labels = inl KeyError.
Proof.
  intros Hin Hnot. unfold getitem_columns.
  rewrite bool_decide_eq_false_2; [done|].
  intros Hall. rewrite Forall_forall in Hall. by apply Hnot, Hall.
Qed.

Lemma text_to_df_written (remove_unicode : string -> string)
    (text_data : list string) (w w' : world) (r : Exc DataFrame) :
  _text_to_df remove_unicode text_data w = (w', r) -> written w' = written w.
Proof.
  rewrite text_to_df_unfold. cbv zeta.
  destruct (markers_mismatch _ _) as [e|[|]]; by intros [= <- _].
Qed.

Lemma text_to_rcsv_table_written (remove_unicode : string -> string)
    (splitext : string -> string * string)
    (dropna : option (list string) -> DataFrame -> Exc DataFrame)
    (text_data : list string) (edat_file : string) (param_dict : ParamDict)
    (w w' : world) (r : Exc DataFrame) :
  text_to_rcsv_table remove_unicode splitext dropna text_data edat_file
    param_dict w = (w', r) ->
  written w' = written w.
Proof.
  unfold text_to_rcsv_table, bind, lift, ret.
  destruct (_text_to_df remove_unicode text_data w) as [w1 [e|df]] eqn:E;
    apply text_to_df_written in E.
  - by intros [= <- _].
  - destruct (rename_step _ _ _) as [e|df1]; [by intros [= <- _]|].
    destruct (merge_step _ _) as [e|df2]; [by intros [= <- _]|].
    destruct (default false (rem_nulls param_dict)); by intros [= <- _].
Qed.

(** C8. In both reducing entry points, when the configured header list
    names a column that the table does not have at the selection, the run
    ends in [KeyError] (the MissingColumn error) at that point, and no csv
    file has been written. *)
Theorem select_missing_column (remove_unicode : string -> string)
    (splitext : string -> string * string)
    (read_csv : string -> list nat -> string -> Exc DataFrame)
    (dropna : option (list string) -> DataFrame -> Exc DataFrame) :
  (forall text_data edat_file param_dict out_file w w' df header_list h,
     text_to_rcsv_table remove_unicode splitext dropna text_data edat_file
       param_dict w = (w', inr df) ->
     headers param_dict = Some header_list ->
     h ∈ header_list -> h ∉ columns df ->
     text_to_rcsv remove_unicode splitext dropna text_data edat_file
       param_dict out_file w = (w', inl KeyError) /\
     written w' = written w) /\
  (forall in_file param_dict out_file w w' df header_list h,
     etext_to_rcsv_table splitext read_csv in_file w = (w', inr df) ->
     headers param_dict = Some header_list ->
     h ∈ header_list -> h ∉ columns df ->
     etext_to_rcsv splitext read_csv dropna in_file param_dict out_file w =
       (w', inl KeyError) /\
     written w' = written w).
Proof.
  split.
  - intros text_data edat_file param_dict out_file w w' df header_list h
      Htable Hh Hin Hnot. split.
    + unfold text_to_rcsv, bind at 1. rewrite Htable.
      unfold bind, lift, select. rewrite Hh.
      by rewrite (getitem_columns_missing df header_list h).
    + by eapply text_to_rcsv_table_written.
  - intros in_file param_dict out_file w w' df header_list h
      Htable Hh Hin Hnot. split.
    + unfold etext_to_rcsv, bind at 1. rewrite Htable.
      unfold bind, lift, select. rewrite Hh.
      by rewrite (getitem_columns_missing df header_list h).
    + unfold etext_to_rcsv_table, lift, raise in Htable.
      repeat case_decide; by injection Htable as <-.
Qed.

Lemma select_missing_column_witness :
  text_to_rcsv keep_line split_at_dot keep_rows demo_log "s.edat2" asks_for_Z
    "out.csv" empty_world = (empty_world, inl KeyError) /\
  etext_to_rcsv split_at_dot one_column_reader keep_rows "s.txt" asks_for_Z
    None empty_world = (empty_world, inl KeyError).
Proof.
  pose proof (select_missing_column keep_line split_at_dot one_column_reader
                keep_rows) as [H1 H2].
  split.
  - refine (proj1 (H1 demo_log "s.edat2" asks_for_Z "out.csv" empty_world
                     empty_world _ ["k1"; "Z"] "Z" eq_refl eq_refl _ _)).
    + right. left.
    + apply (bool_decide_unpack _). vm_compute. exact I.
  - refine (proj1 (H2 "s.txt" asks_for_Z None empty_world
                     empty_world _ ["k1"; "Z"] "Z" eq_refl eq_refl _ _)).
    + right. left.
    + apply (bool_decide_unpack _). vm_compute. exact I.
Defined.

(** ** Lines 164-174 when a mapping is not configured *)

Lemma rename_step_absent (edat_suffix : string) (param_dict : ParamDict)
    (df : DataFrame) :
  replace_dict param_dict = None \/ replace_dict param_dict = Some [] ->
  rename_step edat_suffix param_dict df = inr df.
Proof. unfold rename_step. by intros [-> | ->]. Qed.

Lemma merge_step_empty (param_dict : ParamDict) (df : DataFrame) :
  merge_cols param_dict = Some [] -> merge_step param_dict df = inr df.
Proof. unfold merge_step. by intros ->. Qed.

(** C9, at the inputs where the code departs from it.  A parameter file
    without [merge_cols] makes the merge step raise [AttributeError], and a
    [replace_dict] that has entries but none for the suffix of the edat
    file makes the rename step raise [TypeError]; the run of
    [text_to_rcsv] on such a file ends there and writes nothing. *)
Theorem unconfigured_steps_raise (df : DataFrame) :
  merge_step no_merge_cols df = inl AttributeError /\
  rename_step ".edat2" edat_only df = inl TypeError /\
  text_to_rcsv keep_line split_at_dot keep_rows demo_log "s.edat2"
    no_merge_cols "out.csv" empty_world = (empty_world, inl AttributeError) /\
  text_to_rcsv keep_line split_at_dot keep_rows demo_log "s.edat2"
    edat_only "out.csv" empty_world = (empty_world, inl TypeError).
Proof. repeat split; reflexivity. Qed.

(** * Further properties of the code *)

(** ** Lines 201-202: the marker indices *)

Lemma marker_index_from_elem_of (a : nat) (marker : string)
    (data : list string) (i : nat) :
  i ∈ marker_index_from a marker data <->
  a <= i /\ data !! (i - a) = Some marker.
Proof.
  revert a. induction data as [|row rest IH]; intros a; simpl.
  - split; [intros H; inversion H | intros [_ H]; done].
  - assert (Hstep : i ∈ marker_index_from (S a) marker rest <->
                    S a <= i /\ (row :: rest) !! (i - a) = Some marker).
    { rewrite IH. split; intros [Hle H]; (split; [done|]).
      - by replace (i - a) with (S (i - S a)) by lia.
      - by replace (i - a) with (S (i - S a)) in H by lia. }
    destruct (decide (row = marker)) as [->|Hne].
    + rewrite elem_of_cons, Hstep. split.
      * intros [->|[Hle H]]; [|split; [lia | done]].
        split; [done|]. by rewrite Nat.sub_diag.
      * intros [Hle H]. destruct (decide (i = a)); [by left | right].
        split; [lia | done].
    + rewrite Hstep. split.
      * intros [Hle H]. split; [lia | done].
      * intros [Hle H]. split; [|done].
        destruct (decide (i = a)) as [->|]; [|lia].
        rewrite Nat.sub_diag in H. simpl in H. congruence.
Qed.

Lemma marker_index_from_increasing (a : nat) (marker : string)
    (data : list string) (j k x y : nat) :
  marker_index_from a marker data !! j = Some x ->
  marker_index_from a marker data !! k = Some y ->
  j < k -> x < y.
Proof.
  revert a j k. induction data as [|row rest IH]; intros a j k; simpl; [done|].
  destruct (decide (row = marker)) as [->|Hne]; [|apply IH].
  destruct j as [|j], k as [|k]; simpl; try lia.
  - intros [= <-] Hy _.
    apply list_elem_of_lookup_2, marker_index_from_elem_of in Hy. lia.
  - intros Hx Hy Hlt. apply (IH (S a) j k); [done | done | lia].
Qed.

(** X1. The index lists of lines 201-202 hold exactly the positions of the
    lines that equal the marker, in increasing order, and no position is
    both a start and an end. *)
Theorem marker_index_exact (filtered_data : list string) :
  (forall marker i,
     i ∈ marker_index marker filtered_data <->
     filtered_data !! i = Some marker) /\
  (forall marker j k x y,
     marker_index marker filtered_data !! j = Some x ->
     marker_index marker filtered_data !! k = Some y ->
     j < k -> x < y) /\
  (forall i, ~ (i ∈ starts_of filtered_data /\ i ∈ ends_of filtered_data)).
Proof.
  assert (Hin : forall marker i,
             i ∈ marker_index marker filtered_data <->
             filtered_data !! i = Some marker).
  { intros marker i. unfold marker_index.
    rewrite marker_index_from_elem_of, Nat.sub_0_r. split; [by intros [_ H]|].
    intros H. split; [lia | done]. }
  split; [exact Hin|]. split.
  - intros marker j k x y. apply marker_index_from_increasing.
  - intros i [Hs He]. unfold starts_of, ends_of in *.
    apply Hin in Hs, He. rewrite Hs in He. discriminate.
Qed.

Lemma marker_index_exact_witness :
  1 < 5 /\ demo_log !! 5 = Some LogFrame_Start.
Proof.
  split.
  - exact (proj1 (proj2 (marker_index_exact demo_log))
             LogFrame_Start 0 1 1 5 eq_refl eq_refl ltac:(lia)).
  - apply (proj1 (marker_index_exact demo_log)). right. left.
Defined.

(** ** Lines 203-205: logs with few markers *)

(** X2. A log in which no line is a start marker and no line is an end
    marker makes [_text_to_df] raise [IndexError] at line 203; nothing is
    printed. *)
Theorem text_to_df_no_markers (remove_unicode : string -> string)
    (text_data : list string) (w : world) :
  starts_of (remove_unicode <$> text_data) = [] ->
  ends_of (remove_unicode <$> text_data) = [] ->
  _text_to_df remove_unicode text_data w = (w, inl IndexError).
Proof.
  intros Hs He. rewrite text_to_df_unfold. cbv zeta. by rewrite Hs, He.
Qed.

Lemma text_to_df_no_markers_witness :
  _text_to_df keep_line ["Header Start"; "Subject: 1"; "Header End"]
    empty_world = (empty_world, inl IndexError).
Proof. apply text_to_df_no_markers; reflexivity. Defined.

Lemma usable_blocks_none (f : list string) :
  usable f = 0 -> usable_blocks f = [].
Proof. unfold usable_blocks. by intros ->. Qed.

(** X3. A log with markers of one kind only (start markers without end
    markers, or the reverse) gives the warning and the table without rows
    and without columns. *)
Theorem text_to_df_one_sided (remove_unicode : string -> string)
    (text_data : list string) (w : world) :
  let f := remove_unicode <$> text_data in
  (starts_of f = [] /\ ends_of f <> []) \/
  (starts_of f <> [] /\ ends_of f = []) ->
  _text_to_df remove_unicode text_data w =
    (warned w, inr (mkDataFrame [] [])).
Proof.
  cbv zeta. set (f := remove_unicode <$> text_data). intros H.
  assert (Hlen : length (starts_of f) <> length (ends_of f)).
  { destruct H as [[-> He]|[Hs ->]]; simpl.
    - destruct (ends_of f); [done | simpl; lia].
    - destruct (starts_of f); [done | simpl; lia]. }
  assert (Hu : usable f = 0).
  { unfold usable. destruct H as [[-> _]|[_ ->]]; simpl; lia. }
  pose proof (usable_blocks_none f Hu) as Hb.
  destruct (text_to_df_total remove_unicode text_data w true) as (df & E & Hdf).
  - by apply markers_mismatch_differ.
  - fold f. by rewrite Hb.
  - rewrite E. fold f in Hdf. unfold materialized in Hdf. rewrite Hb in Hdf.
    vm_compute in Hdf. by injection Hdf as <-.
Qed.

Lemma text_to_df_one_sided_witness :
  _text_to_df keep_line ["*** LogFrame Start ***"; "a: 1"] empty_world =
    (warned empty_world, inr (mkDataFrame [] [])).
Proof.
  apply text_to_df_one_sided. right. split; [discriminate | reflexivity].
Defined.

(** X4. [_text_to_df] never writes a file, and prints at most the warning
    of line 204; when the numbers of markers agree and the first start
    marker comes before the first end marker it prints nothing, whatever
    the order of the later markers. *)
Theorem text_to_df_output (remove_unicode : string -> string)
    (text_data : list string) (w w' : world) (r : Exc DataFrame) :
  let f := remove_unicode <$> text_data in
  _text_to_df remove_unicode text_data w = (w', r) ->
  written w' = written w /\
  (stdout w' = stdout w \/ stdout w' = stdout w ++ [mismatch_warning]) /\
  (forall s0 e0,
     length (starts_of f) = length (ends_of f) ->
     starts_of f !! 0 = Some s0 -> ends_of f !! 0 = Some e0 -> s0 < e0 ->
     w' = w).
Proof.
  cbv zeta. rewrite text_to_df_unfold. cbv zeta.
  destruct (markers_mismatch _ _) as [e|warn] eqn:Hm.
  - intros [= <- _]. repeat split; auto.
  - intros [= <- _]. split; [by destruct warn|]. split.
    + destruct warn; [right | left]; done.
    + intros s0 e0 Hlen Hs He Hlt.
      rewrite (markers_mismatch_heads _ _ s0 e0 Hlen Hs He) in Hm.
      injection Hm as <-. by rewrite (proj2 (Nat.leb_gt e0 s0)).
Qed.

Lemma text_to_df_output_witness :
  exists r, _text_to_df keep_line demo_log empty_world = (empty_world, r).
Proof.
  destruct (_text_to_df keep_line demo_log empty_world) as [w' r] eqn:E.
  exists r. f_equal.
  refine (proj2 (proj2 (text_to_df_output keep_line demo_log empty_world w' r E))
            1 4 eq_refl eq_refl eq_refl _).
  lia.
Defined.

(** ** Invariants of the table *)

Lemma write_from_Forall (P : cell -> Prop) (a : nat) (hs : list string)
    (key : string) (v : cell) (row : list cell) :
  P v -> Forall P row -> Forall P (write_from a hs key v row).
Proof.
  intros Hv. revert a row. induction hs as [|h hs IH]; intros a row Hrow;
    [done|].
  rewrite write_from_cons. apply IH. destruct (decide (key = h)); [|done].
  by apply Forall_insert.
Qed.

Lemma row_of_text (hs : list string) (blk : list string) :
  Forall (fun c => forall z, c <> Num z) (row_of hs blk).
Proof.
  unfold row_of.
  assert (H0 : Forall (fun c : cell => forall z, c <> Num z)
                 (replicate (length hs) NaN)).
  { apply Forall_replicate. done. }
  revert H0. generalize (replicate (length hs) NaN).
  induction blk as [|line rest IH]; intros row Hrow; [done|].
  rewrite rowfill_cons. apply IH. by apply write_from_Forall.
Qed.

Lemma materialized_text_only (f : list string) : text_only (materialized f).
Proof.
  unfold text_only, materialized. cbn [values].
  apply Forall_fmap, Forall_forall. intros blk _. apply row_of_text.
Qed.

Lemma backfilled_Forall (P : cell -> Prop) (vals : list cell) :
  Forall P vals -> Forall P (backfilled vals).
Proof.
  intros H.
  destruct (backfilled_spec vals) as [(i & v & Ho & _ & ->)|(_ & ->)]; [|done].
  apply Forall_replicate. destruct Ho as (Hv & _).
  by apply (Forall_lookup_1 _ _ _ _ H Hv).
Qed.

Lemma column_values_Forall (P : cell -> Prop) (df : DataFrame) (k : nat) :
  well_shaped df -> k < length (columns df) ->
  Forall (Forall P) (values df) -> Forall P (column_values df k).
Proof.
  intros Hws Hk Hall. unfold column_values. apply Forall_fmap.
  apply Forall_forall. intros row Hrow. simpl.
  rewrite Forall_forall in Hall. specialize (Hall row Hrow).
  unfold well_shaped in Hws. rewrite Forall_forall in Hws.
  specialize (Hws row Hrow). simpl in Hws.
  destruct (lookup_lt_is_Some_2 row k) as [c Hc]; [lia|].
  rewrite Hc. simpl. by apply (Forall_lookup_1 _ _ _ _ Hall Hc).
Qed.

Lemma rows_Forall (P : cell -> Prop) (df : DataFrame) :
  well_shaped df ->
  (forall k, k < length (columns df) -> Forall P (column_values df k)) ->
  Forall (Forall P) (values df).
Proof.
  intros Hws Hcols. apply Forall_lookup. intros i row Hrow.
  apply Forall_lookup. intros k c Hc.
  pose proof (Forall_lookup_1 _ _ _ _ Hws Hrow) as Hlen. simpl in Hlen.
  assert (Hk : k < length (columns df)).
  { rewrite <- Hlen. by eapply lookup_lt_Some. }
  specialize (Hcols k Hk).
  pose proof (column_values_lookup df k i row Hrow) as Hcv.
  rewrite Hc in Hcv. simpl in Hcv.
  by apply (Forall_lookup_1 _ _ _ _ Hcols Hcv).
Qed.

(** X5. Every table that [_text_to_df] returns has distinct column labels,
    one cell per column in every row, and only texts and nulls as cells. *)
Theorem text_to_df_invariant (remove_unicode : string -> string)
    (text_data : list string) (w w' : world) (df : DataFrame) :
  _text_to_df remove_unicode text_data w = (w', inr df) ->
  NoDup (columns df) /\ well_shaped df /\ text_only df.
Proof.
  intros H. destruct (text_to_df_shape _ _ _ _ _ H) as (Hc & Hws & _ & Hk).
  split; [rewrite Hc; apply materialized_NoDup|]. split; [done|].
  apply rows_Forall; [done|]. intros k Hlt. rewrite Hk by done.
  apply backfilled_Forall. apply column_values_Forall.
  - apply materialized_well_shaped.
  - by rewrite <- Hc.
  - apply materialized_text_only.
Qed.

Lemma text_to_df_invariant_witness :
  exists df,
    _text_to_df keep_line demo_log empty_world = (empty_world, inr df) /\
    NoDup (columns df) /\ well_shaped df /\ text_only df.
Proof.
  eexists. split; [reflexivity|].
  exact (text_to_df_invariant keep_line demo_log empty_world empty_world _
           eq_refl).
Defined.

(** ** Lines 235-239: what the backfill leaves alone *)

(** X6. The backfill only ever fills nulls: a cell that differs before and
    after was null before and holds a value after, so every value of the
    table stays where it was. *)
Theorem singleton_backfill_fills_nulls (df df' : DataFrame) :
  NoDup (columns df) -> well_shaped df ->
  singleton_backfill df = inr df' ->
  forall i row row' k c c',
    values df !! i = Some row -> values df' !! i = Some row' ->
    row !! k = Some c -> row' !! k = Some c' ->
    c <> c' -> c = NaN /\ c' <> NaN.
Proof.
  intros Hnd Hws E i row row' k c c' Hrow Hrow' Hc Hc' Hne.
  destruct (singleton_backfill_eq df Hnd Hws) as (df1 & E1 & _ & _ & _ & Hk).
  rewrite E in E1. injection E1 as <-.
  assert (Hlt : k < length (columns df)).
  { rewrite <- (Forall_lookup_1 _ _ _ _ Hws Hrow). by eapply lookup_lt_Some. }
  pose proof (column_values_lookup df k i row Hrow) as Hcv.
  pose proof (column_values_lookup df' k i row' Hrow') as Hcv'.
  rewrite Hc in Hcv. rewrite Hc', (Hk k Hlt) in Hcv'. simpl in Hcv, Hcv'.
  destruct (backfilled_spec (column_values df k))
    as [(i0 & v & Ho & _ & Eb)|(_ & Eb)]; rewrite Eb in Hcv'.
  - apply lookup_replicate in Hcv' as [-> _].
    destruct Ho as (Hv & Hn & Huniq). split; [|done].
    destruct (decide (c = NaN)) as [|Hcn]; [done|]. exfalso.
    assert (i = i0) as -> by (by eapply Huniq). congruence.
  - congruence.
Qed.

Lemma singleton_backfill_fills_nulls_witness :
  exists df' row' c',
    singleton_backfill five_rows = inr df' /\
    values df' !! 1 = Some row' /\ row' !! 0 = Some c' /\ c' <> NaN.
Proof.
  eexists _, _, _. split; [reflexivity|]. split; [reflexivity|].
  split; [reflexivity|].
  refine (proj2 (singleton_backfill_fills_nulls five_rows _ _ _ eq_refl
                   1 [NaN; NaN; NaN; NaN; NaN] _ 0 NaN _
                   eq_refl eq_refl eq_refl eq_refl _)).
  - apply (bool_decide_unpack _). vm_compute. exact I.
  - repeat constructor.
  - discriminate.
Defined.

(** X7. In a table of at most three rows every row is the first, the last
    or the one before the last, so every column that holds exactly one
    value is filled with it. *)
Theorem singleton_backfill_small_table (df df' : DataFrame) :
  NoDup (columns df) -> well_shaped df -> n_rows_of df <= 3 ->
  singleton_backfill df = inr df' ->
  forall k i v,
    k < length (columns df) ->
    only_value_at (column_values df k) i v ->
    column_values df' k = replicate (n_rows_of df) v.
Proof.
  intros Hnd Hws Hn E k i v Hlt Ho.
  destruct (singleton_backfill_eq df Hnd Hws) as (df1 & E1 & _ & _ & _ & Hk).
  rewrite E in E1. injection E1 as <-. rewrite (Hk k Hlt).
  assert (Hi : i < n_rows_of df).
  { rewrite <- (length_column_values df k). destruct Ho as (Hv & _).
    by eapply lookup_lt_Some. }
  destruct (backfilled_spec (column_values df k))
    as [(i0 & v0 & Ho0 & _ & ->)|(Hno & _)].
  - rewrite length_column_values. f_equal.
    destruct Ho as (Hv & Hnn & _), Ho0 as (Hv0 & _ & Huniq).
    assert (i = i0) as -> by (by eapply Huniq). congruence.
  - exfalso. apply Hno. exists i, v. split; [done|].
    rewrite length_column_values. unfold edge_row. lia.
Qed.

Lemma singleton_backfill_small_table_witness :
  exists df',
    singleton_backfill three_rows = inr df' /\
    column_values df' 0 = replicate 3 (Str "mid").
Proof.
  eexists. split; [reflexivity|].
  refine (singleton_backfill_small_table three_rows _ _ _ _ eq_refl
            0 1 (Str "mid") _ _).
  - apply (bool_decide_unpack _). vm_compute. exact I.
  - repeat constructor.
  - vm_compute. lia.
  - simpl. lia.
  - split; [reflexivity|]. split; [discriminate|].
    intros j c Hc Hn. destruct j as [|[|[|j]]]; simpl in Hc;
      try done; by injection Hc as <-.
Defined.

(** ** Lines 214-215 and 226-229: a line split at its first colon *)

Lemma take_drop (n : nat) (s : string) : PyStr.take n s +:+ PyStr.drop n s = s.
Proof.
  revert n. induction s as [|a s IH]; intros [|n]; try reflexivity.
  simpl. by rewrite append_cons, IH.
Qed.

Lemma find_drop (c : ascii) (s : string) (i : nat) :
  PyStr.find c s = Some i -> PyStr.drop i s = String c (PyStr.drop (S i) s).
Proof.
  revert i. induction s as [|a s IH]; intros i; simpl; [done|].
  destruct (decide (a = c)) as [->|Hne].
  - intros [= <-]. by destruct s.
  - destruct (PyStr.find c s) as [j|]; simpl; [|done].
    intros [= <-]. by apply IH.
Qed.

Lemma find_take (c : ascii) (s : string) (i : nat) :
  PyStr.find c s = Some i ->
  PyStr.find c (PyStr.take i s) = None /\ String.length (PyStr.take i s) = i.
Proof.
  revert i. induction s as [|a s IH]; intros i; simpl; [done|].
  destruct (decide (a = c)) as [->|Hne].
  - by intros [= <-].
  - destruct (PyStr.find c s) as [j|]; simpl; [|done].
    intros [= <-]. destruct (IH j eq_refl) as [H1 H2]. simpl.
    rewrite decide_False by done. by rewrite H1, H2.
Qed.

(** X8. A line with a colon is its key, the colon and the rest, put
    together again; the key is the text before the first colon, so it has
    no colon itself. *)
Theorem line_split_at_first_colon (line : string) (i : nat) :
  PyStr.find colon line = Some i ->
  line = key_of line +:+ String colon (PyStr.drop (i + 1) line) /\
  PyStr.find colon (key_of line) = None /\
  String.length (key_of line) = i.
Proof.
  intros H. rewrite (key_of_Some _ _ H), Nat.add_1_r.
  rewrite <- (find_drop _ _ _ H), take_drop. split; [done|].
  by apply find_take.
Qed.

Lemma line_split_at_first_colon_witness :
  "Procedure: TrialProc: b" =
  "Procedure" +:+ String colon (PyStr.drop 10 "Procedure: TrialProc: b").
Proof.
  exact (proj1 (line_split_at_first_colon "Procedure: TrialProc: b" 9 eq_refl)).
Defined.

Lemma lstrip_split (s : string) :
  exists ws, s = ws +:+ PyStr.lstrip s /\ all_space ws = true.
Proof.
  induction s as [|a s (ws & Hs & Hws)]; [by exists EmptyString|].
  simpl. destruct (PyStr.isspace a) eqn:Ea.
  - exists (String a ws). rewrite append_cons, <- Hs. simpl.
    by rewrite Ea, Hws.
  - by exists EmptyString.
Qed.

Lemma lstrip_head (s : string) (a : ascii) (rest : string) :
  PyStr.lstrip s = String a rest -> PyStr.isspace a = false.
Proof.
  induction s as [|b s IH]; simpl; [done|].
  destruct (PyStr.isspace b) eqn:Eb; [done|]. by intros [= <- _].
Qed.

(** X9. The value of a line is the text after its first colon without
    the white space in front of it: it never begins with a white space
    character, and a line with nothing but white space after the colon has
    the empty text as its value, which is a value and not a null. *)
Theorem value_of_stripped (line : string) (i : nat) :
  PyStr.find colon line = Some i ->
  (exists ws, PyStr.drop (i + 1) line = ws +:+ value_of line /\
              all_space ws = true) /\
  (forall a rest, value_of line = String a rest -> PyStr.isspace a = false) /\
  (all_space (PyStr.drop (i + 1) line) = true ->
   value_of line = EmptyString /\ notnan (Str (value_of line)) = true).
Proof.
  intros H. rewrite (value_of_Some _ _ H). split; [apply lstrip_split|].
  split; [apply lstrip_head|].
  intros Hall. split; [|done].
  induction (PyStr.drop (i + 1) line) as [|a s IH]; [done|].
  simpl in *. apply andb_prop in Hall as [-> Hs]. by apply IH.
Qed.

Lemma value_of_stripped_witness :
  value_of "Stimulus:     " = EmptyString /\
  notnan (Str (value_of "Stimulus:     ")) = true.
Proof.
  exact (proj2 (proj2 (value_of_stripped "Stimulus:     " 8 eq_refl)) eq_refl).
Defined.

(** ** Text outside the frames *)

Lemma marker_index_from_shift (n a : nat) (marker : string)
    (data : list string) :
  marker_index_from (n + a) marker data =
  (fun i => n + i) <$> marker_index_from a marker data.
Proof.
  revert a. induction data as [|row rest IH]; intros a; [done|].
  cbn [marker_index_from]. rewrite <- Nat.add_succ_r, IH.
  by destruct (decide (row = marker)).
Qed.

Lemma marker_index_from_junk_l (a : nat) (marker : string)
    (junk data : list string) :
  Forall (fun line => line <> marker) junk ->
  marker_index_from a marker (junk ++ data) =
  marker_index_from (length junk + a) marker data.
Proof.
  intros H. revert a. induction H as [|line junk Hl _ IH]; intros a; [done|].
  simpl. rewrite decide_False by done. rewrite IH. f_equal. lia.
Qed.

Lemma marker_index_from_junk_r (a : nat) (marker : string)
    (data junk : list string) :
  Forall (fun line => line <> marker) junk ->
  marker_index_from a marker (data ++ junk) = marker_index_from a marker data.
Proof.
  intros H. revert a. induction data as [|row rest IH]; intros a; simpl.
  - revert a. induction H as [|line junk Hl _ IHj]; intros a; [done|].
    simpl. rewrite decide_False by done. apply IHj.
  - rewrite IH. done.
Qed.

Lemma markers_mismatch_shift (n : nat) (starts ends : list nat) :
  markers_mismatch ((fun i => n + i) <$> starts) ((fun i => n + i) <$> ends) =
  markers_mismatch starts ends.
Proof.
  unfold markers_mismatch, getitem. rewrite !length_fmap.
  destruct (negb _); [done|]. rewrite !list_lookup_fmap.
  destruct (starts !! 0) as [s0|]; [|done].
  destruct (ends !! 0) as [e0|]; [|done]. simpl. f_equal.
  destruct (Nat.leb_spec e0 s0), (Nat.leb_spec (n + e0) (n + s0)); try done; lia.
Qed.

Lemma slice_junk_l {A} (junk data : list A) (a b : nat) :
  slice (junk ++ data) (length junk + a) (length junk + b) = slice data a b.
Proof.
  unfold slice. rewrite drop_app_add.
  by replace (length junk + b - (length junk + a)) with (b - a) by lia.
Qed.

Lemma slice_junk_r {A} (data junk : list A) (a b : nat) :
  b <= length data -> slice (data ++ junk) a b = slice data a b.
Proof.
  intros Hb. unfold slice. rewrite drop_app, take_app, length_drop.
  replace (b - a - (length data - a)) with 0 by lia.
  by rewrite take_0, app_nil_r.
Qed.

Lemma text_to_df_same_blocks (remove_unicode : string -> string)
    (text_data1 text_data2 : list string) (w : world) :
  let f1 := remove_unicode <$> text_data1 in
  let f2 := remove_unicode <$> text_data2 in
  markers_mismatch (starts_of f1) (ends_of f1) =
  markers_mismatch (starts_of f2) (ends_of f2) ->
  usable_blocks f1 = usable_blocks f2 ->
  _text_to_df remove_unicode text_data1 w =
  _text_to_df remove_unicode text_data2 w.
Proof.
  cbv zeta. intros Hm Hb. rewrite !text_to_df_unfold. cbv zeta.
  rewrite Hm, !materialize_usable. unfold materialized. by rewrite Hb.
Qed.

Lemma junk_prefix_ignored (junk f : list string) :
  Forall not_a_marker junk ->
  markers_mismatch (starts_of (junk ++ f)) (ends_of (junk ++ f)) =
    markers_mismatch (starts_of f) (ends_of f) /\
  usable_blocks (junk ++ f) = usable_blocks f.
Proof.
  intros Hj.
  assert (Hs : starts_of (junk ++ f) =
               (fun i => length junk + i) <$> starts_of f).
  { unfold starts_of, marker_index.
    rewrite marker_index_from_junk_l.
    - apply marker_index_from_shift.
    - eapply Forall_impl; [exact Hj|]. by intros line [H _]. }
  assert (He : ends_of (junk ++ f) =
               (fun i => length junk + i) <$> ends_of f).
  { unfold ends_of, marker_index.
    rewrite marker_index_from_junk_l.
    - apply marker_index_from_shift.
    - eapply Forall_impl; [exact Hj|]. by intros line [_ H]. }
  split; [by rewrite Hs, He, markers_mismatch_shift|].
  unfold usable_blocks, usable, blocks_from. rewrite Hs, He, !length_fmap.
  apply list_fmap_ext. intros _ i _. unfold block.
  rewrite !list_lookup_fmap.
  destruct (starts_of f !! i) as [s|]; [|done].
  destruct (ends_of f !! i) as [e|]; [|done]. simpl.
  rewrite <- Nat.add_assoc. apply slice_junk_l.
Qed.

Lemma junk_suffix_ignored (f junk : list string) :
  Forall not_a_marker junk ->
  markers_mismatch (starts_of (f ++ junk)) (ends_of (f ++ junk)) =
    markers_mismatch (starts_of f) (ends_of f) /\
  usable_blocks (f ++ junk) = usable_blocks f.
Proof.
  intros Hj.
  assert (Hs : starts_of (f ++ junk) = starts_of f).
  { unfold starts_of, marker_index. apply marker_index_from_junk_r.
    eapply Forall_impl; [exact Hj|]. by intros line [H _]. }
  assert (He : ends_of (f ++ junk) = ends_of f).
  { unfold ends_of, marker_index. apply marker_index_from_junk_r.
    eapply Forall_impl; [exact Hj|]. by intros line [_ H]. }
  split; [by rewrite Hs, He|].
  unfold usable_blocks, usable, blocks_from. rewrite Hs, He.
  apply list_fmap_ext. intros _ i _. unfold block.
  destruct (starts_of f !! i) as [s|]; [|done].
  destruct (ends_of f !! i) as [e|] eqn:Ee; [|done].
  apply slice_junk_r.
  apply list_elem_of_lookup_2 in Ee. unfold ends_of, marker_index in Ee.
  apply marker_index_from_elem_of in Ee as [_ Ee].
  apply lookup_lt_Some in Ee. lia.
Qed.

(** X10. Lines before the first marker and after the last one play no
    part: a log with extra lines in front and behind, none of which is a
    marker once sanitized, gives the same result (table, warning or
    exception) as the log without them. *)
Theorem text_to_df_ignores_outside (remove_unicode : string -> string)
    (before text_data after : list string) (w : world) :
  Forall (fun line => not_a_marker (remove_unicode line)) before ->
  Forall (fun line => not_a_marker (remove_unicode line)) after ->
  _text_to_df remove_unicode (before ++ text_data ++ after) w =
  _text_to_df remove_unicode text_data w.
Proof.
  intros Hb Ha.
  assert (Hb' : Forall not_a_marker (remove_unicode <$> before))
    by (by apply Forall_fmap).
  assert (Ha' : Forall not_a_marker (remove_unicode <$> after))
    by (by apply Forall_fmap).
  clear Hb Ha. rename Hb' into Hb, Ha' into Ha.
  apply text_to_df_same_blocks; rewrite !fmap_app.
  - destruct (junk_prefix_ignored (remove_unicode <$> before)
                ((remove_unicode <$> text_data) ++ (remove_unicode <$> after))
                Hb) as [-> _].
    by destruct (junk_suffix_ignored (remove_unicode <$> text_data)
                   (remove_unicode <$> after) Ha) as [-> _].
  - destruct (junk_prefix_ignored (remove_unicode <$> before)
                ((remove_unicode <$> text_data) ++ (remove_unicode <$> after))
                Hb) as [_ ->].
    by destruct (junk_suffix_ignored (remove_unicode <$> text_data)
                   (remove_unicode <$> after) Ha) as [_ ->].
Qed.

Lemma text_to_df_ignores_outside_witness :
  _text_to_df keep_line
    (["*** Header Start ***"; "Subject: 7"] ++ demo_log ++ ["trailing"])
    empty_world =
  _text_to_df keep_line demo_log empty_world.
Proof.
  apply text_to_df_ignores_outside.
  - repeat constructor; discriminate.
  - repeat constructor; discriminate.
Defined.

(** ** Line 211: a frame whose end does not come after its start *)

(** X11. When the end marker of frame [i] stands on the line after its
    start marker, or anywhere before it, the slice of line 211 is empty:
    nothing is raised and row [i] of the table of lines 207-231 consists of
    nulls. *)
Theorem inverted_frame_row (f : list string) (i s e : nat) :
  all_colons (usable_blocks f) = true ->
  i < usable f ->
  starts_of f !! i = Some s -> ends_of f !! i = Some e -> e <= s + 1 ->
  exists df,
    materialize f (mkFrames (starts_of f) (ends_of f) (usable f)) = inr df /\
    values df !! i = Some (replicate (length (columns df)) NaN).
Proof.
  intros Hc Hi Hs He Hle. exists (materialized f).
  rewrite materialize_usable, Hc. split; [done|].
  assert (Hb : usable_blocks f !! i = Some []).
  { unfold usable_blocks, blocks_from.
    rewrite list_lookup_fmap, lookup_seq_lt by done. simpl.
    unfold block. rewrite Hs, He. unfold slice.
    by replace (e - (s + 1)) with 0 by lia. }
  by rewrite (materialized_row f i [] Hb).
Qed.

Lemma inverted_frame_row_witness :
  exists df,
    materialize inverted_log
      (mkFrames (starts_of inverted_log) (ends_of inverted_log)
         (usable inverted_log)) = inr df /\
    values df !! 1 = Some [NaN].
Proof.
  destruct (inverted_frame_row inverted_log 1 4 3 eq_refl) as (df & E & Hrow).
  - vm_compute. lia.
  - reflexivity.
  - reflexivity.
  - lia.
  - exists df. split; [exact E|]. rewrite Hrow.
    vm_compute in E. by injection E as <-.
Defined.

(** ** The entry points: what is written, and when *)

Lemma text_to_rcsv_unfold (remove_unicode : string -> string)
    (splitext : string -> string * string)
    (dropna : option (list string) -> DataFrame -> Exc DataFrame)
    (text_data : list string) (edat_file : string) (param_dict : ParamDict)
    (out_file : string) (w : world) :
  text_to_rcsv remove_unicode splitext dropna text_data edat_file param_dict
    out_file w =
  match text_to_rcsv_table remove_unicode splitext dropna text_data edat_file
          param_dict w with
  | (w1, inl e) => (w1, inl e)
  | (w1, inr df) =>
      match select (headers param_dict) df with
      | inl e => (w1, inl e)
      | inr df2 =>
          (mkWorld (stdout w1 ++ [created out_file])
             (written w1 ++ [(out_file, df2)]), inr tt)
      end
  end.
Proof.
  unfold text_to_rcsv, bind at 1.
  destruct (text_to_rcsv_table _ _ _ _ _ _ _) as [w1 [e|df]]; [done|].
  unfold bind, lift, to_csv, print.
  by destruct (select _ _).
Qed.






Lemma etext_to_rcsv_table_world (splitext : string -> string * string)
    (read_csv : string -> list nat -> string -> Exc DataFrame)
    (in_file : string) (w w' : world) (r : Exc DataFrame) :
  etext_to_rcsv_table splitext read_csv in_file w = (w', r) -> w' = w.
Proof.
  unfold etext_to_rcsv_table, lift, raise.
  repeat case_decide; by intros [= <- _].
Qed.



(** X14. [etext_to_rcsv] on a file that is neither [.txt] nor [.csv]
    raises the exception of line 80 before anything else is looked at:
    whatever the reader would return and whatever the parameter file
    holds, nothing is printed and nothing is written. *)
Theorem etext_to_rcsv_bad_suffix (splitext : string -> string * string)
    (read_csv : string -> list nat -> string -> Exc DataFrame)
    (dropna : option (list string) -> DataFrame -> Exc DataFrame)
    (in_file : string) (param_dict : ParamDict) (out_file : option string)
    (w : world) :
  snd (splitext in_file) <> ".txt" -> snd (splitext in_file) <> ".csv" ->
  etext_to_rcsv splitext read_csv dropna in_file param_dict out_file w =
    (w, inl (Exception ("File not txt or csv: " +:+ in_file))).
Proof.
  intros Ht Hc. unfold etext_to_rcsv, bind, etext_to_rcsv_table, raise.
  by rewrite !decide_False.
Qed.

Lemma etext_to_rcsv_bad_suffix_witness :
  etext_to_rcsv split_at_dot one_column_reader keep_rows "subj.edat2"
    asks_for_Z None empty_world =
  (empty_world, inl (Exception "File not txt or csv: subj.edat2")).
Proof.
  apply etext_to_rcsv_bad_suffix; vm_compute; discriminate.
Defined.

(** X15. The two reducing entry points treat a parameter file without
    [rem_nulls] differently.  [etext_to_rcsv] raises [KeyError] at line 87,
    after the selection and before any file is written; [text_to_rcsv]
    takes the flag as off, and with the flag off or absent its result does
    not depend on the null filter or on [null_cols]. *)
Theorem rem_nulls_absent (remove_unicode : string -> string)
    (splitext : string -> string * string)
    (read_csv : string -> list nat -> string -> Exc DataFrame) :
  (forall dropna in_file param_dict out_file w w' df df2,
     etext_to_rcsv_table splitext read_csv in_file w = (w', inr df) ->
     select (headers param_dict) df = inr df2 ->
     rem_nulls param_dict = None ->
     etext_to_rcsv splitext read_csv dropna in_file param_dict out_file w =
       (w, inl KeyError)) /\
  (forall dropna1 dropna2 text_data edat_file out_file w hs rd mc nc1 nc2 flag,
     flag = None \/ flag = Some false ->
     text_to_rcsv remove_unicode splitext dropna1 text_data edat_file
       (mkParamDict hs flag nc1 rd mc) out_file w =
     text_to_rcsv remove_unicode splitext dropna2 text_data edat_file
       (mkParamDict hs None nc2 rd mc) out_file w).
Proof.
  split.
  - intros dropna in_file param_dict out_file w w' df df2 Et Hs Hr.
    pose proof (etext_to_rcsv_table_world _ _ _ _ _ _ Et) as ->.
    unfold etext_to_rcsv, bind at 1. rewrite Et.
    unfold bind at 1, lift at 1. rewrite Hs.
    unfold bind, lift. by rewrite Hr.
  - intros dropna1 dropna2 text_data edat_file out_file w hs rd mc nc1 nc2
      flag Hflag.
    rewrite !text_to_rcsv_unfold. unfold text_to_rcsv_table.
    cbn [rem_nulls headers null_cols].
    by destruct Hflag as [-> | ->].
Qed.

Lemma rem_nulls_absent_witness :
  etext_to_rcsv split_at_dot one_column_reader keep_rows "subj.txt"
    (mkParamDict (Some ["A"]) None None None None) None empty_world =
  (empty_world, inl KeyError).
Proof.
  refine (proj1 (rem_nulls_absent keep_line split_at_dot one_column_reader)
            keep_rows "subj.txt"
            (mkParamDict (Some ["A"]) None None None None) None
            empty_world empty_world _ _ eq_refl eq_refl eq_refl).
Defined.

(** X16. [text_to_csv] writes a file exactly when [_text_to_df] returns a
    table: then it writes that table, once, under [out_file]; when the
    parser raises, the same exception comes out and no file is written. *)
Theorem text_to_csv_writes (remove_unicode : string -> string)
    (text_data : list string) (out_file : string) (w w' : world)
    (r : Exc unit) :
  text_to_csv remove_unicode text_data out_file w = (w', r) ->
  match r with
  | inl e =>
      _text_to_df remove_unicode text_data w = (w', inl e) /\
      written w' = written w
  | inr _ =>
      exists w1 df,
        _text_to_df remove_unicode text_data w = (w1, inr df) /\
        written w' = written w ++ [(out_file, df)] /\
        stdout w' = stdout w1 ++ [created out_file]
  end.
Proof.
  unfold text_to_csv, bind at 1.
  destruct (_text_to_df remove_unicode text_data w) as [w1 [e|df]] eqn:E;
    pose proof (text_to_df_written _ _ _ _ _ E) as Hw.
  - by intros [= <- <-].
  - unfold bind, to_csv, print. intros [= <- <-].
    exists w1, df. cbn [written stdout]. by rewrite Hw.
Qed.

Lemma text_to_csv_writes_witness :
  exists df,
    written (fst (text_to_csv keep_line demo_log "all.csv" empty_world)) =
      [("all.csv", df)] /\
    _text_to_df keep_line demo_log empty_world = (empty_world, inr df).
Proof.
  pose proof (text_to_csv_writes keep_line demo_log "all.csv" empty_world
                _ (inr tt) eq_refl) as (w1 & df & E & Hw & _).
  exists df. split; [exact Hw|]. rewrite E. f_equal.
  vm_compute in E. by injection E as <- _.
Defined.

(** ** Lines 85 and 182: the selection *)

Lemma first_index_NoDup (l : list string) (k : nat) (c : string) :
  NoDup l -> l !! k = Some c -> first_index c l = Some k.
Proof.
  intros Hnd Hk.
  destruct (first_index_elem_of c l) as [k' Hk'];
    [by eapply list_elem_of_lookup_2|].
  rewrite Hk'. f_equal.
  eapply NoDup_lookup; [exact Hnd | by apply first_index_Some | exact Hk].
Qed.

Lemma selected_labels (cols labels : list string) :
  NoDup cols -> Forall (fun l => l ∈ cols) labels ->
  flat_map (fun l => (fun _ : nat => l) <$> locs l cols) labels = labels.
Proof.
  intros Hnd Hall. induction Hall as [|l labels Hl _ IH]; [done|].
  cbn [flat_map]. rewrite IH.
  destruct (first_index_elem_of _ _ Hl) as [k Hk].
  by rewrite (locs_unique _ _ _ Hnd Hk).
Qed.

(** X17. The selection fails, with [KeyError], exactly when a requested
    label names no column.  On a table with distinct labels it otherwise
    returns the requested columns and no others, in the order asked for
    (repeated if a label is repeated), with the same number of rows and
    each cell taken from the column of its label. *)
Theorem select_in_order (df : DataFrame) (labels : list string) :
  (select (Some labels) df = inl KeyError <->
   exists h, h ∈ labels /\ h ∉ columns df) /\
  (NoDup (columns df) -> Forall (fun l => l ∈ columns df) labels ->
   select (Some labels) df =
   inr (mkDataFrame labels
          ((fun row => label_cell df row <$> labels) <$> values df))).
Proof.
  split.
  - unfold select, getitem_columns. case_bool_decide as Hall.
    + split; [done|]. intros (h & Hin & Hnot). exfalso.
      rewrite Forall_forall in Hall. by apply Hnot, Hall.
    + split; [|done]. intros _.
      apply not_Forall_Exists in Hall; [|apply _].
      apply Exists_exists in Hall as (h & Hin & Hnot). eauto.
  - intros Hnd Hall. unfold select, getitem_columns.
    rewrite bool_decide_eq_true_2 by done. f_equal.
    rewrite selected_labels by done. f_equal.
    apply list_fmap_ext. intros _ row _. by apply selected_cells.
Qed.

Lemma select_in_order_witness :
  select (Some ["B"; "A"; "B"]) merge_example =
  inr (mkDataFrame ["B"; "A"; "B"]
         [[NaN; Str "x"; NaN]; [Str "2"; Str "1"; Str "2"]]).
Proof.
  refine (proj2 (select_in_order merge_example ["B"; "A"; "B"]) _ _).
  - apply (bool_decide_unpack _). vm_compute. exact I.
  - apply (bool_decide_unpack _). vm_compute. exact I.
Defined.

(** X18. Selecting all the columns of a table, in their own order, gives
    the table back. *)
Theorem select_all_columns (df : DataFrame) :
  NoDup (columns df) -> well_shaped df ->
  select (Some (columns df)) df = inr df.
Proof.
  intros Hnd Hws.
  assert (Hall : Forall (fun l => l ∈ columns df) (columns df))
    by (by apply Forall_forall).
  unfold select, getitem_columns. rewrite bool_decide_eq_true_2 by done.
  rewrite selected_labels by done. destruct df as [cols rows].
  cbn [columns values] in *. do 2 f_equal.
  rewrite <- (list_fmap_id rows) at 2.
  apply Forall_fmap_ext_1. unfold well_shaped in Hws. cbn [values columns] in Hws.
  eapply Forall_impl; [exact Hws|]. intros row Hlen. simpl.
  rewrite (selected_cells (mkDataFrame cols rows)) by done.
  simpl in Hlen.
  apply list_eq_same_length with (length cols);
    [done | apply length_fmap |].
  intros k x y Hk Hx Hy. rewrite list_lookup_fmap in Hx.
  destruct (lookup_lt_is_Some_2 cols k Hk) as [c Hc].
  rewrite Hc in Hx. simpl in Hx. unfold label_cell in Hx. cbn [columns] in Hx.
  rewrite (first_index_NoDup _ _ _ Hnd Hc), Hy in Hx. simpl in Hx. congruence.
Qed.

Lemma select_all_columns_witness :
  select (Some ["meta"; "meta2"; "meta3"; "none"; "two"]) five_rows =
  inr five_rows.
Proof.
  apply (select_all_columns five_rows).
  - apply (bool_decide_unpack _). vm_compute. exact I.
  - repeat constructor.
Defined.

(** ** Lines 172-174: the merges *)

Lemma setitem_column_old (df : DataFrame) (dest : string) (kd : nat)
    (g : list cell -> cell) :
  NoDup (columns df) -> first_index dest (columns df) = Some kd ->
  setitem_column df dest (g <$> values df) =
  mkDataFrame (columns df) ((fun row => <[kd := g row]> row) <$> values df).
Proof.
  intros Hnd Hkd. unfold setitem_column.
  assert (Hin : dest ∈ columns df).
  { eapply list_elem_of_lookup_2. by apply first_index_Some. }
  rewrite decide_True by done.
  by rewrite (locs_unique _ _ _ Hnd Hkd), zip_with_fmap_same.
Qed.

Lemma setitem_column_new (df : DataFrame) (dest : string)
    (g : list cell -> cell) :
  dest ∉ columns df ->
  setitem_column df dest (g <$> values df) =
  mkDataFrame (columns df ++ [dest])
    ((fun row => row ++ [g row]) <$> values df).
Proof.
  intros Hnin. unfold setitem_column. rewrite decide_False by done.
  by rewrite zip_with_fmap_same.
Qed.

(** X19. A merge with a non-empty list of existing source columns keeps
    the table in order: the labels stay distinct, every row keeps one cell
    per column, the cells stay texts or nulls, a new destination becomes
    the last column while an existing one keeps its place, and the cells
    of every other column are what they were. *)
Theorem merge_one_frame (df : DataFrame) (dest : string)
    (sources : list string) :
  NoDup (columns df) -> well_shaped df -> text_only df ->
  Forall (fun l => l ∈ columns df) sources -> sources <> [] ->
  exists df',
    merge_one dest sources df = inr df' /\
    NoDup (columns df') /\ well_shaped df' /\ text_only df' /\
    columns df' =
      (if decide (dest ∈ columns df) then columns df
       else columns df ++ [dest]) /\
    forall i row,
      values df !! i = Some row ->
      exists row',
        values df' !! i = Some row' /\
        forall l, l ∈ columns df -> l <> dest ->
                  label_cell df' row' l = label_cell df row l.
Proof.
  intros Hnd Hws Htext Hall Hne.
  rewrite merge_one_values by done.
  set (g := fun row : list cell =>
              Str (concat_text
                     ((fun s => text_of (label_cell df row s)) <$> sources))).
  eexists. split; [reflexivity|].
  destruct (decide (dest ∈ columns df)) as [Hin|Hnin].
  - destruct (first_index_elem_of _ _ Hin) as [kd Hkd].
    rewrite (setitem_column_old df dest kd g Hnd Hkd).
    cbn [columns values]. split; [done|]. split.
    { unfold well_shaped. cbn [columns values]. apply Forall_fmap.
      eapply Forall_impl; [exact Hws|]. intros row Hrow. simpl.
      by rewrite length_insert. }
    split.
    { unfold text_only. cbn [values]. apply Forall_fmap.
      eapply Forall_impl; [exact Htext|]. intros row Hrow. simpl.
      by apply Forall_insert. }
    split; [done|]. intros i row Hrow.
    exists (<[kd := g row]> row). rewrite list_lookup_fmap, Hrow.
    split; [done|]. intros l Hl Hld. unfold label_cell. cbn [columns].
    destruct (first_index l (columns df)) as [k|] eqn:Ek; [|done].
    rewrite list_lookup_insert_ne; [done|]. intros <-.
    apply first_index_Some in Ek, Hkd. congruence.
  - rewrite (setitem_column_new df dest g Hnin).
    cbn [columns values]. split.
    { apply NoDup_app. split; [done|]. split; [|apply NoDup_singleton].
      intros x Hx ->%list_elem_of_singleton. done. }
    split.
    { unfold well_shaped. cbn [columns values]. apply Forall_fmap.
      eapply Forall_impl; [exact Hws|]. intros row Hrow. simpl in *.
      rewrite !length_app. simpl. lia. }
    split.
    { unfold text_only. cbn [values]. apply Forall_fmap.
      eapply Forall_impl; [exact Htext|]. intros row Hrow. simpl.
      apply Forall_app. split; [done|]. by repeat constructor. }
    split; [done|]. intros i row Hrow.
    exists (row ++ [g row]). rewrite list_lookup_fmap, Hrow.
    split; [done|]. intros l Hl Hld. unfold label_cell. cbn [columns].
    rewrite first_index_snoc_old by done.
    destruct (first_index l (columns df)) as [k|] eqn:Ek; [|done].
    rewrite lookup_app_l; [done|].
    rewrite (Forall_lookup_1 _ _ _ _ Hws Hrow). by apply first_index_lt in Ek.
Qed.

Lemma merge_one_frame_witness :
  exists df',
    merge_one "A" ["B"; "A"] merge_example = inr df' /\
    columns df' = ["A"; "B"] /\
    values df' = [[Str "x"; NaN]; [Str "21"; Str "2"]].
Proof.
  destruct (merge_one_frame merge_example "A" ["B"; "A"])
    as (df' & E & _ & _ & _ & Hc & _).
  - apply (bool_decide_unpack _). vm_compute. exact I.
  - repeat constructor.
  - repeat constructor; discriminate.
  - apply (bool_decide_unpack _). vm_compute. exact I.
  - discriminate.
  - exists df'. split; [exact E|]. split; [exact Hc|].
    vm_compute in E. by injection E as <-.
Defined.

(** X20. A merge whose source list names a column that the table does not
    have raises [KeyError], and the merge step stops at the first such
    mapping, whatever mappings follow it. *)
Theorem merge_missing_source (df : DataFrame) (dest h : string)
    (sources : list string) :
  h ∈ sources -> h ∉ columns df ->
  merge_one dest sources df = inl KeyError /\
  forall rest hs rn nc rd,
    merge_step (mkParamDict hs rn nc rd (Some ((dest, sources) :: rest))) df =
    inl KeyError.
Proof.
  intros Hin Hnot.
  assert (E : merge_one dest sources df = inl KeyError).
  { unfold merge_one. by rewrite (getitem_columns_missing df sources h). }
  split; [exact E|]. intros rest hs rn nc rd.
  unfold merge_step. cbn [merge_cols fmap list_fmap fst for_each dict_get].
  rewrite decide_True by done. by rewrite E.
Qed.

Lemma merge_missing_source_witness :
  merge_one "C" ["A"; "Z"] merge_example = inl KeyError.
Proof.
  refine (proj1 (merge_missing_source merge_example "C" "Z" ["A"; "Z"] _ _)).
  - right. left.
  - apply (bool_decide_unpack _). vm_compute. exact I.
Defined.






(** ** Lines 243-262: what the command line can call *)

Lemma MODULE_FUNCTIONS_eq (n : nat) :
  MODULE_FUNCTIONS n =
  ["etext_to_rcsv"; "remove_unicode"; "text_to_csv"; "text_to_rcsv"].
Proof. reflexivity. Qed.

Lemma main_cases (n : nat) (prog function_name : string) (args : list string) :
  main n (prog :: function_name :: args) =
  if decide (function_name = "etext_to_rcsv") then
    if 3 =? length args then inr (Call function_name args)
    else inl (IOError_args function_name 3 (length args))
  else if decide (function_name = "remove_unicode") then
    if n =? length args then inr (Call function_name args)
    else inl (IOError_args function_name n (length args))
  else if decide (function_name = "text_to_csv") then
    if 2 =? length args then inr (Call function_name args)
    else inl (IOError_args function_name 2 (length args))
  else if decide (function_name = "text_to_rcsv") then
    if 4 =? length args then inr (Call function_name args)
    else inl (IOError_args function_name 4 (length args))
  else inl (IOError_not_in function_name).
Proof.
  unfold main. cbn [lookup list_lookup length drop].
  rewrite MODULE_FUNCTIONS_eq, !Nat.sub_succ, Nat.sub_0_r.
  destruct (decide (function_name = "etext_to_rcsv")) as [->|H1];
    [reflexivity|].
  destruct (decide (function_name = "remove_unicode")) as [->|H2];
    [reflexivity|].
  destruct (decide (function_name = "text_to_csv")) as [->|H3];
    [reflexivity|].
  destruct (decide (function_name = "text_to_rcsv")) as [->|H4];
    [reflexivity|].
  rewrite bool_decide_eq_false_2; [done|].
  rewrite !elem_of_cons, elem_of_nil. tauto.
Qed.

(** A call that went through tells the name and the number of arguments. *)
Ltac accepted_call H :=
  match type of H with
  | (if ?a =? ?b then _ else _) = _ =>
      let Hn := fresh "Hn" in
      destruct (Nat.eqb_spec a b) as [Hn|Hn]; [|done];
      injection H as <- <-; split; [done|];
      rewrite <- Hn, !elem_of_cons; tauto
  end.

(** X22. The command line reaches a function exactly when its first
    argument is one of [etext_to_rcsv], [text_to_csv], [text_to_rcsv] or
    the imported [remove_unicode] and the number of further arguments is
    the full number of the function's parameters; the call then receives
    those arguments unchanged.  So [_text_to_df] is never called, and
    [etext_to_rcsv] is refused with two arguments although its third
    parameter has a default. *)
Theorem main_dispatch (remove_unicode_n_args : nat) (argv : list string) :
  (forall function_name args,
     main remove_unicode_n_args argv = inr (Call function_name args) <->
     exists prog,
       argv = prog :: function_name :: args /\
       (function_name, length args) ∈
         [("etext_to_rcsv", 3); ("text_to_csv", 2); ("text_to_rcsv", 4);
          ("remove_unicode", remove_unicode_n_args)]) /\
  (forall prog args,
     argv = prog :: "_text_to_df" :: args ->
     main remove_unicode_n_args argv = inl (IOError_not_in "_text_to_df")) /\
  (forall prog in_file param_file,
     argv = [prog; "etext_to_rcsv"; in_file; param_file] ->
     main remove_unicode_n_args argv =
       inl (IOError_args "etext_to_rcsv" 3 2)).
Proof.
  split; [|split].
  - intros function_name args. split.
    + destruct argv as [|prog [|name rest]]; [done | done |].
      rewrite main_cases. intros H. exists prog.
      destruct (decide (name = "etext_to_rcsv")) as [->|H1];
        [accepted_call H|].
      destruct (decide (name = "remove_unicode")) as [->|H2];
        [accepted_call H|].
      destruct (decide (name = "text_to_csv")) as [->|H3];
        [accepted_call H|].
      destruct (decide (name = "text_to_rcsv")) as [->|H4];
        [accepted_call H|].
      done.
    + intros (prog & -> & Hin). rewrite main_cases.
      rewrite !elem_of_cons, elem_of_nil in Hin.
      destruct Hin as [[= -> <-]|[[= -> <-]|[[= -> <-]|[[= -> <-]|[]]]]];
        repeat case_decide; try done; by rewrite Nat.eqb_refl.
  - intros prog args ->. by rewrite main_cases.
  - intros prog in_file param_file ->. by rewrite main_cases.
Qed.

(** ** Lines 235-239 on a table of one row *)

Lemma backfilled_short (vals : list cell) :
  length vals <= 1 -> backfilled vals = vals.
Proof.
  destruct vals as [|c [|c' rest]]; simpl; intros H; [done | | lia].
  by destruct c.
Qed.

(** X23. A table with at most one row comes out of the backfill as it
    went in. *)
Theorem singleton_backfill_one_row (df : DataFrame) :
  NoDup (columns df) -> well_shaped df -> n_rows_of df <= 1 ->
  singleton_backfill df = inr df.
Proof.
  intros Hnd Hws Hn.
  destruct (singleton_backfill_eq df Hnd Hws) as (df' & E & Hc & Hw & Hr & Hk).
  rewrite E. f_equal. apply DataFrame_ext; [done..|].
  intros k Hlt. rewrite Hc in Hlt. rewrite (Hk k Hlt).
  apply backfilled_short. by rewrite length_column_values.
Qed.

Lemma singleton_backfill_one_row_witness :
  singleton_backfill (mkDataFrame ["a"; "b"] [[Str "only"; NaN]]) =
  inr (mkDataFrame ["a"; "b"] [[Str "only"; NaN]]).
Proof.
  apply singleton_backfill_one_row.
  - apply (bool_decide_unpack _). vm_compute. exact I.
  - repeat constructor.
  - unfold n_rows_of. simpl. lia.
Defined.

(** ** A marker inside a frame *)

Lemma slice_elem_of {A} (l : list A) (a b j : nat) (x : A) :
  a <= j < b -> l !! j = Some x -> x ∈ slice l a b.
Proof.
  intros Hj Hx. unfold slice. apply list_elem_of_lookup. exists (j - a).
  rewrite lookup_take_lt by lia. rewrite lookup_drop.
  by replace (a + (j - a)) with j by lia.
Qed.

Lemma text_to_df_colon_free (remove_unicode : string -> string)
    (text_data : list string) (w : world) (i : nat) (blk : list string)
    (line : string) :
  let f := remove_unicode <$> text_data in
  usable_blocks f !! i = Some blk -> line ∈ blk ->
  has_colon line = false ->
  exists w', _text_to_df remove_unicode text_data w = (w', inl ValueError).
Proof.
  cbv zeta. set (f := remove_unicode <$> text_data).
  intros Hblk Hline Hno.
  assert (Hpos : 0 < usable f).
  { rewrite <- length_usable_blocks. apply lookup_lt_Some in Hblk. lia. }
  destruct (markers_mismatch_defined (starts_of f) (ends_of f) Hpos)
    as [warn Hm].
  rewrite text_to_df_unfold. cbv zeta. fold f.
  rewrite Hm, materialize_usable.
  destruct (all_colons (usable_blocks f)) eqn:Hc; [|cbn [exc_bind]; eauto].
  exfalso. rewrite all_colons_spec in Hc.
  specialize (Hc blk line (list_elem_of_lookup_2 _ _ _ Hblk) Hline).
  congruence.
Qed.

(** X24. A marker line strictly between the start and the end of a usable
    frame (a frame opened before the previous one was closed, or closed
    twice) is taken for a line of the block; having no colon it makes
    [_text_to_df] raise [ValueError], so the run does not get past the
    warning. *)
Theorem marker_inside_frame_raises (remove_unicode : string -> string)
    (text_data : list string) (w : world) (i s e j : nat) :
  let f := remove_unicode <$> text_data in
  i < usable f ->
  starts_of f !! i = Some s -> ends_of f !! i = Some e ->
  j ∈ starts_of f \/ j ∈ ends_of f ->
  s < j < e ->
  exists w', _text_to_df remove_unicode text_data w = (w', inl ValueError).
Proof.
  cbv zeta. set (f := remove_unicode <$> text_data).
  intros Hi Hs He Hj Hlt.
  assert (Hline : exists line, f !! j = Some line /\ has_colon line = false).
  { destruct Hj as [Hj|Hj]; unfold starts_of, ends_of, marker_index in Hj;
      apply marker_index_from_elem_of in Hj as [_ Hj];
      rewrite Nat.sub_0_r in Hj; eauto. }
  destruct Hline as (line & Hl & Hno).
  apply (text_to_df_colon_free remove_unicode text_data w i
           (slice f (s + 1) e) line); [|  | done].
  - unfold usable_blocks, blocks_from. fold f.
    rewrite list_lookup_fmap, lookup_seq_lt by done. simpl.
    unfold block. by rewrite Hs, He.
  - apply (slice_elem_of f (s + 1) e j); [lia | done].
Qed.

Lemma marker_inside_frame_raises_witness :
  exists w',
    _text_to_df keep_line unclosed_log empty_world = (w', inl ValueError).
Proof.
  apply (marker_inside_frame_raises keep_line unclosed_log empty_world 0 0 4 2).
  - vm_compute. lia.
  - reflexivity.
  - reflexivity.
  - left. right. left.
  - lia.
Defined.

Lemma main_dispatch_witness :
  main 1 ["convert.py"; "etext_to_rcsv"; "subj.txt"; "task.json"] =
    inl (IOError_args "etext_to_rcsv" 3 2) /\
  main 1 ["convert.py"; "text_to_csv"; "subj.txt"; "subj.csv"] =
    inr (Call "text_to_csv" ["subj.txt"; "subj.csv"]).
Proof.
  split.
  - exact (proj2 (proj2 (main_dispatch 1
                           ["convert.py"; "etext_to_rcsv"; "subj.txt";
                            "task.json"]))
             "convert.py" "subj.txt" "task.json" eq_refl).
  - apply (proj1 (main_dispatch 1
                    ["convert.py"; "text_to_csv"; "subj.txt"; "subj.csv"])).
    exists "convert.py". split; [reflexivity|]. right. left.
Defined.
